(** * Frontera strategy worker: a shallow embedding of
      [frontera/worker/strategy.py] and the properties of its batch
      pipeline, score emitter, state context and shutdown sequence.

    The worker's Python objects (the worker itself, its [StatesContext],
    its [UpdateScoreStream], the three [LoopingCall]s and the reactor) are
    one record, [Worker]; every method is a computation in the
    state-and-exception monad [M].  The collaborators that live outside the
    file (consumer, decoder, encoder, producer, states backend, manager,
    crawling strategy) are interfaces; what the worker asks of them is
    recorded, in order, in the [calls] field, and what it logs in [logs].
    The decoder and the strategy's handlers may raise; the calls to the
    states backend, the producer, the consumer and the manager are taken to
    return. *)

From Stdlib Require Import QArith Ascii String.
From stdpp Require Import gmap strings list pretty.

Open Scope Z_scope.

(** ** Data model *)

(** Values stored under the byte-string keys of [Request.meta]. *)
Inductive MetaVal :=
| MInt (n : Z)
| MBytes (b : string).

Global Instance MetaVal_eq_dec : EqDecision MetaVal.
Proof. solve_decision. Defined.

Global Instance MetaVal_countable : Countable MetaVal.
Proof.
  refine (inj_countable'
            (λ v, match v with MInt n => inl n | MBytes b => inr b end)
            (λ s, match s with inl n => MInt n | inr b => MBytes b end) _).
  by intros [].
Defined.

(** A request: the worker reads [url] and [meta] only.  A response exposes
    the [meta] of its request and its own [url], so it is carried by the same
    record. *)
Record Request := mkRequest {
  url : string;
  meta : gmap string MetaVal
}.

Global Instance Request_eq_dec : EqDecision Request.
Proof. solve_decision. Defined.

(** [r.meta[b'fingerprint']] and [r.meta[b'jid']] as dictionary lookups. *)
Definition fingerprint (r : Request) : option MetaVal := meta r !! "fingerprint".
Definition jid (r : Request) : option MetaVal := meta r !! "jid".

(** [r.meta[b'jid'] = j] *)
Definition set_jid (j : Z) (r : Request) : Request :=
  mkRequest (url r) (<["jid" := MInt j]> (meta r)).

(** The tuples produced by the decoder, by their first component. *)
Inductive Event :=
| AddSeeds (seeds : list Request)
| PageCrawled (response : Request)
| LinksExtracted (request : Request) (links : list Request)
| RequestError (request : Request) (error : string)
| Offset (partition offset : Z)
| Unknown (tag : string).

(** Exceptions: instances of Python's [Exception], by class; what
    [except Exception] does not catch ([KeyboardInterrupt], [SystemExit],
    [GeneratorExit]) is outside the model. *)
Inductive exn :=
| KeyError (key : string)
| TypeError (msg : string)
| ValueError (msg : string)
| RuntimeError (msg : string)
| AssertionError (msg : string)
| OtherError (cls msg : string).

Global Instance exn_eq_dec : EqDecision exn.
Proof. solve_decision. Defined.

(** The argument of a call that takes one request or a sequence of them. *)
Inductive ReqArg :=
| One (r : Request)
| Many (rs : list Request).

Definition covers (a : ReqArg) (r : Request) : Prop :=
  match a with
  | One r' => r' = r
  | Many rs => r ∈ rs
  end.

(** An invocation of a handler of the crawling strategy. *)
Inductive HandlerCall :=
| HAddSeeds (seeds : list Request)
| HPageCrawled (response : Request)
| HLinksExtracted (request : Request) (links : list Request)
| HPageError (request : Request) (error : string).

Inductive TaskName := WorkTask | FlushStatesTask | LoggingTask.

(** What the worker asks of its collaborators. *)
Inductive Call :=
| ConsumerGetMessages (count : Z)
| ConsumerClose
| StatesFetch (fps : gset MetaVal)
| StatesSetStates (a : ReqArg)
| StatesUpdateCache (a : ReqArg)
| StatesFlush
| StrategyEnter (h : HandlerCall)
| StrategyExit (h : HandlerCall) (raised : option exn)
| StrategyFinished (answer : bool)
| StrategyClose
| ManagerStop
| EncodeUpdateScore (request : Request) (score : Q) (schedule : bool)
| ProducerSend (key : option string) (encoded : string)
| ProducerClose
| LoopingCallStop (t : TaskName)
| ReactorStop.

Global Instance ReqArg_eq_dec : EqDecision ReqArg.
Proof. solve_decision. Defined.
Global Instance HandlerCall_eq_dec : EqDecision HandlerCall.
Proof. solve_decision. Defined.
Global Instance TaskName_eq_dec : EqDecision TaskName.
Proof. solve_decision. Defined.
Global Instance Q_eq_dec : EqDecision Q.
Proof. solve_decision. Defined.
Global Instance Call_eq_dec : EqDecision Call.
Proof. solve_decision. Defined.

Inductive LogArg :=
| AInt (n : Z)
| AStr (s : string)
| AEvent (e : Event).

Inductive LogRecord :=
| LogDebug (fmt : string) (args : list LogArg)
| LogInfo (fmt : string) (args : list LogArg)
| LogError (fmt : string) (args : list LogArg)
| LogException (e : exn).

(** [binascii.hexlify]: two lower-case hexadecimal digits per byte. *)
Definition hex_digit (n : N) : Ascii.ascii :=
  nth (N.to_nat n) (list_ascii_of_string "0123456789abcdef") "f"%char.

Fixpoint hexlify (m : string) : string :=
  match m with
  | EmptyString => EmptyString
  | String c rest =>
      let n := Ascii.N_of_ascii c in
      String (hex_digit (n / 16)%N)
        (String (hex_digit (n mod 16)%N) (hexlify rest))
  end.

(** ** Collaborator interfaces *)

(** What a strategy handler does with the two objects the worker hands to
    the strategy ([update_score] and [states_context]) while it runs. *)
Inductive StrategyOp :=
| OpSend (request : Request) (score : option Q) (dont_queue : option bool)
| OpToFetch (requests : ReqArg)
| OpFetch
| OpRefreshAndKeep (requests : ReqArg).

(** One run of a handler: the operations it performs in order, whether it
    then raises, and the strategy's own state afterwards.  An exception raised
    by one of the operations leaves the handler at that point. *)
Record HandlerRun (S : Type) := mkRun {
  ops : list StrategyOp;
  raises : option exn;
  next : S
}.
Arguments mkRun {S}.
Arguments ops {S}.
Arguments raises {S}.
Arguments next {S}.

(** The crawling strategy plug-in, with internal state [S]. *)
Class CrawlingStrategy (S : Type) := {
  add_seeds : S → list Request → HandlerRun S;
  page_crawled : S → Request → HandlerRun S;
  links_extracted : S → Request → list Request → HandlerRun S;
  page_error : S → Request → string → HandlerRun S;
  finished : S → bool;
  close : S → S
}.

(** The codec: [decode] returns the decoded tuple or raises. *)
Class Decoder := decode : string → exn + Event.
Class Encoder := encode_update_score : Request → Q → bool → string.

(** ** Worker state *)

Record StatesContextT := mkStatesContext {
  _requests : list Request;
  _fingerprints : gset MetaVal
}.

Record Stats := mkStats {
  consumed_since_start : Z;
  consumed_add_seeds : Z;
  consumed_page_crawled : Z;
  consumed_links_extracted : Z;
  consumed_request_error : Z;
  last_consumed : option Z;
  last_consumption_run : option string
}.

(** [twisted.internet.task.LoopingCall]: only its [running] flag matters
    to the worker. *)
Record LoopingCall := mkLoopingCall { running : bool }.

(** The callbacks [stop_tasks] chains on its [Deferred]. *)
Inductive Callback := PerformShutdown | StopReactor.

(** What is waiting in the reactor: [callFromThread(call_shutdown)],
    [callLater(0, d.callback, None)] and
    [deferLater(reactor, delay, run_flush_states_task)]. *)
Inductive DelayedCall :=
| CallShutdown
| DeferredCallback (d : list Callback)
| RunFlushStatesTask.

Record Reactor := mkReactor {
  reactor_running : bool;
  delayed : list DelayedCall
}.

Record Worker (S : Type) := mkWorker {
  job_id : Z;
  consumer_batch_size : Z;
  stats : Stats;
  states_context : StatesContextT;
  strategy : S;
  task : LoopingCall;
  _flush_states_task : LoopingCall;
  _logging_task : LoopingCall;
  reactor : Reactor;
  calls : list Call;
  logs : list LogRecord
}.
Arguments mkWorker {S}.
Arguments job_id {S}.
Arguments consumer_batch_size {S}.
Arguments stats {S}.
Arguments states_context {S}.
Arguments strategy {S}.
Arguments task {S}.
Arguments _flush_states_task {S}.
Arguments _logging_task {S}.
Arguments reactor {S}.
Arguments calls {S}.
Arguments logs {S}.

Section Setters.
Context {S : Type}.
Implicit Type w : Worker S.

Definition set_stats (f : Stats → Stats) w : Worker S :=
  mkWorker (job_id w) (consumer_batch_size w) (f (stats w)) (states_context w)
    (strategy w) (task w) (_flush_states_task w) (_logging_task w)
    (reactor w) (calls w) (logs w).
Definition set_states_context (f : StatesContextT → StatesContextT) w : Worker S :=
  mkWorker (job_id w) (consumer_batch_size w) (stats w) (f (states_context w))
    (strategy w) (task w) (_flush_states_task w) (_logging_task w)
    (reactor w) (calls w) (logs w).
Definition set_strategy (s : S) w : Worker S :=
  mkWorker (job_id w) (consumer_batch_size w) (stats w) (states_context w)
    s (task w) (_flush_states_task w) (_logging_task w)
    (reactor w) (calls w) (logs w).
Definition set_task (t : TaskName) (lc : LoopingCall) w : Worker S :=
  mkWorker (job_id w) (consumer_batch_size w) (stats w) (states_context w)
    (strategy w)
    (match t with WorkTask => lc | _ => task w end)
    (match t with FlushStatesTask => lc | _ => _flush_states_task w end)
    (match t with LoggingTask => lc | _ => _logging_task w end)
    (reactor w) (calls w) (logs w).
Definition set_reactor (f : Reactor → Reactor) w : Worker S :=
  mkWorker (job_id w) (consumer_batch_size w) (stats w) (states_context w)
    (strategy w) (task w) (_flush_states_task w) (_logging_task w)
    (f (reactor w)) (calls w) (logs w).
Definition add_call (c : Call) w : Worker S :=
  mkWorker (job_id w) (consumer_batch_size w) (stats w) (states_context w)
    (strategy w) (task w) (_flush_states_task w) (_logging_task w)
    (reactor w) (calls w ++ [c]) (logs w).
Definition add_log (l : LogRecord) w : Worker S :=
  mkWorker (job_id w) (consumer_batch_size w) (stats w) (states_context w)
    (strategy w) (task w) (_flush_states_task w) (_logging_task w)
    (reactor w) (calls w) (logs w ++ [l]).

Definition get_task (t : TaskName) w : LoopingCall :=
  match t with
  | WorkTask => task w
  | FlushStatesTask => _flush_states_task w
  | LoggingTask => _logging_task w
  end.
End Setters.

(** ** The state-and-exception monad

    A Python statement either completes or raises; in both cases the
    mutations it made so far stay. *)
Inductive Result (A : Type) :=
| Ok (a : A)
| Raise (e : exn).
Arguments Ok {A}.
Arguments Raise {A}.

Definition M (S A : Type) : Type := Worker S → Result A * Worker S.

Section Monad.
Context {S : Type}.

Definition ret {A} (a : A) : M S A := λ w, (Ok a, w).
Definition bind {A B} (m : M S A) (k : A → M S B) : M S B :=
  λ w, match m w with
       | (Ok a, w') => k a w'
       | (Raise e, w') => (Raise e, w')
       end.
Definition raise {A} (e : exn) : M S A := λ w, (Raise e, w).
Definition gets {A} (f : Worker S → A) : M S A := λ w, (Ok (f w), w).
Definition modify (f : Worker S → Worker S) : M S unit := λ w, (Ok tt, f w).
Definition call (c : Call) : M S unit := modify (add_call c).
Definition log (l : LogRecord) : M S unit := modify (add_log l).

(** [try: body / except Exception as exc: handler exc] *)
Definition try_except {A} (body : M S A) (handler : exn → M S A) : M S A :=
  λ w, match body w with
       | (Ok a, w') => (Ok a, w')
       | (Raise e, w') => handler e w'
       end.

(** [for x in xs: body x] *)
Fixpoint for_each {A} (xs : list A) (body : A → M S unit) : M S unit :=
  match xs with
  | [] => ret tt
  | x :: rest => bind (body x) (λ _, for_each rest body)
  end.
End Monad.

Global Instance M_ret {S} : MRet (M S) := λ A a, ret a.
Global Instance M_bind {S} : MBind (M S) := λ A B k m, bind m k.

(** ** [class StatesContext] *)
Module StatesContext.
Section Methods.
Context {S : Type}.

(** [x.meta[b'fingerprint']] *)
Definition meta_fingerprint (x : Request) : M S MetaVal :=
  match fingerprint x with
  | Some fp => ret fp
  | None => raise (KeyError "fingerprint")
  end.

(** [[x.meta[b'fingerprint'] for x in requests]] *)
Fixpoint fingerprints_of (requests : list Request) : M S (list MetaVal) :=
  match requests with
  | [] => ret []
  | x :: rest =>
      fp ← meta_fingerprint x;
      fps ← fingerprints_of rest;
      ret (fp :: fps)
  end.

Definition update_fingerprints (fps : list MetaVal) : M S unit :=
  modify (set_states_context (λ c,
    mkStatesContext (_requests c) (_fingerprints c ∪ list_to_set fps))).

Definition to_fetch (requests : ReqArg) : M S unit :=
  match requests with
  | Many rs =>
      fps ← fingerprints_of rs;
      update_fingerprints fps
  | One r =>
      fp ← meta_fingerprint r;
      update_fingerprints [fp]
  end.

Definition fetch : M S unit :=
  fps ← gets (λ w, _fingerprints (states_context w));
  call (StatesFetch fps);;
  modify (set_states_context (λ c, mkStatesContext (_requests c) ∅)).

Definition refresh_and_keep (requests : ReqArg) : M S unit :=
  to_fetch requests;;
  fetch;;
  call (StatesSetStates requests);;
  match requests with
  | Many rs =>
      modify (set_states_context (λ c,
        mkStatesContext (_requests c ++ rs) (_fingerprints c)))
  | One _ => raise (TypeError "'Request' object is not iterable")
  end.

Definition release : M S unit :=
  rs ← gets (λ w, _requests (states_context w));
  call (StatesUpdateCache (Many rs));;
  modify (set_states_context (λ c, mkStatesContext [] (_fingerprints c))).

Definition flush : M S unit :=
  log (LogInfo "Flushing states" []);;
  call StatesFlush;;
  log (LogInfo "Flushing of states finished" []).
End Methods.
End StatesContext.

(** ** [class UpdateScoreStream] *)
Module UpdateScoreStream.
Section Methods.
Context {S : Type} `{!Encoder}.

(** [send(self, request, score=1.0, dont_queue=False)]; an argument left
    out by the caller is [None] here. *)
Definition send (request : Request) (score : option Q)
    (dont_queue : option bool) : M S unit :=
  let score := default 1%Q score in
  let dont_queue := default false dont_queue in
  let encoded := encode_update_score request score (negb dont_queue) in
  call (EncodeUpdateScore request score (negb dont_queue));;
  call (ProducerSend None encoded).

Definition flush : M S unit := ret tt.
End Methods.
End UpdateScoreStream.

(** ** [class BaseStrategyWorker] *)
Module BaseStrategyWorker.
Section Methods.
Context {S : Type} `{!CrawlingStrategy S, !Decoder, !Encoder}.

(** [__init__], after the collaborators have been built from the
    settings: counters at zero, job 0, nothing running yet. *)
Definition init (strategy0 : S) (batch_size : Z) : Worker S :=
  mkWorker 0 batch_size
    (mkStats 0 0 0 0 0 None None)
    (mkStatesContext [] ∅)
    strategy0
    (mkLoopingCall false) (mkLoopingCall false) (mkLoopingCall false)
    (mkReactor false [])
    [] [].

Definition collect_unknown_message (msg : Event) : M S unit :=
  log (LogDebug "Unknown message %s" [AEvent msg]).

Definition on_unknown_message (msg : Event) : M S unit := ret tt.

(** The inner [try] block of [collect_batch]: enrol the fingerprints the
    message refers to. *)
Definition classify (msg : Event) : M S unit :=
  match msg with
  | AddSeeds seeds => StatesContext.to_fetch (Many seeds)
  | PageCrawled response => StatesContext.to_fetch (One response)
  | LinksExtracted request links =>
      StatesContext.to_fetch (One request);;
      StatesContext.to_fetch (Many links)
  | RequestError request error => StatesContext.to_fetch (One request)
  | Offset _ _ => ret tt
  | Unknown _ => collect_unknown_message msg
  end.

(** [except (KeyError, TypeError)] *)
Definition is_KeyError_or_TypeError (e : exn) : bool :=
  match e with
  | KeyError _ | TypeError _ => true
  | _ => false
  end.

(** The [for m in ...] loop of [collect_batch], with its two locals.  When
    [decode] raises something the [except] clause does not name, [finally]
    still counts the message and the exception leaves [collect_batch]. *)
Fixpoint collect_loop (msgs : list string) (batch : list Event) (consumed : Z)
    : M S (list Event * Z) :=
  match msgs with
  | [] => ret (batch, consumed)
  | m :: rest =>
      match decode m with
      | inl e =>
          if is_KeyError_or_TypeError e then
            log (LogError "Decoding error:" []);;
            log (LogException e);;
            log (LogDebug "Message %s" [AStr (hexlify m)]);;
            collect_loop rest batch (consumed + 1)
          else raise e
      | inr msg =>
          try_except (classify msg) (λ exc, log (LogException exc));;
          collect_loop rest (batch ++ [msg]) (consumed + 1)
      end
  end.

(** [msgs] is what [consumer.get_messages(count=..., timeout=1.0)] yields. *)
Definition collect_batch (msgs : list string) : M S (list Event * Z) :=
  count ← gets consumer_batch_size;
  call (ConsumerGetMessages count);;
  collect_loop msgs [] 0.

(** A call of the strategy: the handler's operations run against the
    worker's [update_score] and [states_context]. *)
Definition run_op (op : StrategyOp) : M S unit :=
  match op with
  | OpSend request score dont_queue =>
      UpdateScoreStream.send request score dont_queue
  | OpToFetch requests => StatesContext.to_fetch requests
  | OpFetch => StatesContext.fetch
  | OpRefreshAndKeep requests => StatesContext.refresh_and_keep requests
  end.

Definition handler_run (s : S) (h : HandlerCall) : HandlerRun S :=
  match h with
  | HAddSeeds seeds => add_seeds s seeds
  | HPageCrawled response => page_crawled s response
  | HLinksExtracted request links => links_extracted s request links
  | HPageError request error => page_error s request error
  end.

(** The body of a handler: its operations, then its own outcome. *)
Definition handler_body (r : HandlerRun S) : M S unit :=
  for_each (ops r) run_op;;
  match raises r with
  | Some e => raise e
  | None => ret tt
  end.

Definition strategy_call (h : HandlerCall) : M S unit :=
  s ← gets strategy;
  let r := handler_run s h in
  call (StrategyEnter h);;
  modify (set_strategy (next r));;
  try_except (handler_body r)
    (λ e, call (StrategyExit h (Some e));; raise e);;
  call (StrategyExit h None).

Definition on_add_seeds (seeds : list Request) : M S unit :=
  log (LogDebug "Adding %i seeds" [AInt (Z.of_nat (length seeds))]);;
  for_each seeds (λ seed, log (LogDebug "URL: %s" [AStr (url seed)]));;
  call (StatesSetStates (Many seeds));;
  strategy_call (HAddSeeds seeds);;
  call (StatesUpdateCache (Many seeds)).

Definition on_page_crawled (response : Request) : M S unit :=
  log (LogDebug "Page crawled %s" [AStr (url response)]);;
  call (StatesSetStates (Many [response]));;
  strategy_call (HPageCrawled response);;
  call (StatesUpdateCache (One response)).

Definition on_links_extracted (request : Request) (links : list Request)
    : M S unit :=
  log (LogDebug "Links extracted %s (%d)"
         [AStr (url request); AInt (Z.of_nat (length links))]);;
  for_each links (λ link, log (LogDebug "URL: %s" [AStr (url link)]));;
  call (StatesSetStates (Many links));;
  strategy_call (HLinksExtracted request links);;
  call (StatesUpdateCache (Many links)).

Definition on_request_error (request : Request) (error : string) : M S unit :=
  log (LogDebug "Page error %s (%s)" [AStr (url request); AStr error]);;
  call (StatesSetStates (One request));;
  strategy_call (HPageError request error);;
  call (StatesUpdateCache (One request)).

(** [b'jid' not in r.meta or r.meta[b'jid'] != self.job_id] *)
Definition stale (r : Request) (job : Z) : bool :=
  match jid r with
  | None => true
  | Some j => bool_decide (j ≠ MInt job)
  end.

Definition incr_add_seeds (st : Stats) : Stats :=
  mkStats (consumed_since_start st) (consumed_add_seeds st + 1)
    (consumed_page_crawled st) (consumed_links_extracted st)
    (consumed_request_error st) (last_consumed st) (last_consumption_run st).
Definition incr_page_crawled (st : Stats) : Stats :=
  mkStats (consumed_since_start st) (consumed_add_seeds st)
    (consumed_page_crawled st + 1) (consumed_links_extracted st)
    (consumed_request_error st) (last_consumed st) (last_consumption_run st).
Definition incr_links_extracted (st : Stats) : Stats :=
  mkStats (consumed_since_start st) (consumed_add_seeds st)
    (consumed_page_crawled st) (consumed_links_extracted st + 1)
    (consumed_request_error st) (last_consumed st) (last_consumption_run st).
Definition incr_request_error (st : Stats) : Stats :=
  mkStats (consumed_since_start st) (consumed_add_seeds st)
    (consumed_page_crawled st) (consumed_links_extracted st)
    (consumed_request_error st + 1) (last_consumed st) (last_consumption_run st).

(** The [try] block of [process_batch] for one message. *)
Definition dispatch (msg : Event) : M S unit :=
  job ← gets job_id;
  match msg with
  | AddSeeds seeds =>
      let seeds := set_jid job <$> seeds in
      on_add_seeds seeds;;
      modify (set_stats incr_add_seeds)
  | PageCrawled response =>
      if stale response job then ret tt
      else on_page_crawled response;;
           modify (set_stats incr_page_crawled)
  | LinksExtracted request links =>
      if stale request job then ret tt
      else on_links_extracted request links;;
           modify (set_stats incr_links_extracted)
  | RequestError request error =>
      if stale request job then ret tt
      else on_request_error request error;;
           modify (set_stats incr_request_error)
  | Offset _ _ | Unknown _ => on_unknown_message msg
  end.

Definition process_msg (msg : Event) : M S unit :=
  try_except (dispatch msg) (λ exc, log (LogException exc)).

Definition process_batch (batch : list Event) : M S unit :=
  for_each batch process_msg.

Definition flush_states : M S unit := StatesContext.flush.

(** The values [log_status] prints, one record per key of [self.stats]. *)
Definition stats_items (st : Stats) : list (string * LogArg) :=
  [("consumed_since_start", AInt (consumed_since_start st));
   ("consumed_add_seeds", AInt (consumed_add_seeds st));
   ("consumed_page_crawled", AInt (consumed_page_crawled st));
   ("consumed_links_extracted", AInt (consumed_links_extracted st));
   ("consumed_request_error", AInt (consumed_request_error st))]
  ++ from_option (λ n, [("last_consumed", AInt n)]) [] (last_consumed st)
  ++ from_option (λ t, [("last_consumption_run", AStr t)]) []
       (last_consumption_run st).

Definition log_status : M S unit :=
  st ← gets stats;
  for_each (stats_items st) (λ kv, log (LogInfo "%s=%s" [AStr kv.1; kv.2])).

(** [LoopingCall.start] and [LoopingCall.stop] assert that the task is
    not, respectively is, running. *)
Definition LoopingCall_start (t : TaskName) : M S unit :=
  lc ← gets (get_task t);
  if running lc
  then raise (AssertionError "Tried to start an already running LoopingCall.")
  else modify (set_task t (mkLoopingCall true)).

Definition LoopingCall_stop (t : TaskName) : M S unit :=
  call (LoopingCallStop t);;
  lc ← gets (get_task t);
  if running lc
  then modify (set_task t (mkLoopingCall false))
  else raise (AssertionError "Tried to stop a LoopingCall that was not running.").

(** [reactor.stop()] raises [ReactorNotRunning], a [RuntimeError], when
    the reactor is not running. *)
Definition reactor_stop : M S unit :=
  call ReactorStop;;
  r ← gets (λ w, reactor_running (reactor w));
  if r : bool
  then modify (set_reactor (λ r, mkReactor false (delayed r)))
  else raise (RuntimeError "Can't stop reactor that isn't running.").

(** [reactor.callLater(0, ...)] and [reactor.callFromThread(...)] *)
Definition reactor_schedule (dc : DelayedCall) : M S unit :=
  modify (set_reactor (λ r, mkReactor (reactor_running r) (delayed r ++ [dc]))).

(** [stop_tasks] returns the [Deferred] it built: its callback chain. *)
Definition stop_tasks : M S (list Callback) :=
  log (LogInfo "Stopping periodic tasks." []);;
  r ← gets (λ w, running (task w));
  (if r : bool then LoopingCall_stop WorkTask else ret tt);;
  r ← gets (λ w, running (_flush_states_task w));
  (if r : bool then LoopingCall_stop FlushStatesTask else ret tt);;
  r ← gets (λ w, running (_logging_task w));
  (if r : bool then LoopingCall_stop LoggingTask else ret tt);;
  ret [PerformShutdown; StopReactor].

Definition _stop_reactor : M S unit :=
  log (LogInfo "Stopping reactor." []);;
  try_except reactor_stop
    (λ e, match e with
          | RuntimeError _ => ret tt
          | _ => raise e
          end).

Definition _perform_shutdown : M S unit :=
  flush_states;;
  log (LogInfo "Closing crawling strategy." []);;
  call StrategyClose;;
  modify (λ w, set_strategy (close (strategy w)) w);;
  log (LogInfo "Stopping frontier manager." []);;
  call ManagerStop;;
  log (LogInfo "Closing message bus." []);;
  call ProducerClose;;
  call ConsumerClose.

Definition run_callback (cb : Callback) : M S unit :=
  match cb with
  | PerformShutdown => _perform_shutdown
  | StopReactor => _stop_reactor
  end.

(** [d.callback(None)]: every callback was added with [addBoth], so it
    runs whether the one before it returned or raised, and a failure never
    leaves the [Deferred]. *)
Fixpoint Deferred_callback (d : list Callback) : M S unit :=
  match d with
  | [] => ret tt
  | cb :: rest =>
      try_except (run_callback cb) (λ _, ret tt);;
      Deferred_callback rest
  end.

Definition set_consumed (consumed : Z) (now : string) (st : Stats) : Stats :=
  mkStats (consumed_since_start st + consumed) (consumed_add_seeds st)
    (consumed_page_crawled st) (consumed_links_extracted st)
    (consumed_request_error st) (Some consumed) (Some now).

(** [now] is what [asctime()] returns. *)
Definition work (msgs : list string) (now : string) : M S unit :=
  bc ← collect_batch msgs;
  StatesContext.fetch;;
  process_batch bc.1;;
  UpdateScoreStream.flush;;
  StatesContext.release;;
  s ← gets strategy;
  call (StrategyFinished (finished s));;
  (if finished s then
     log (LogInfo "Successfully reached the crawling goal." []);;
     log (LogInfo "Finishing." []);;
     d ← stop_tasks;
     reactor_schedule (DeferredCallback d)
   else ret tt);;
  modify (set_stats (set_consumed bc.2 now)).

(** [call_shutdown], the closure inside [_handle_shutdown]. *)
Definition call_shutdown : M S unit :=
  d ← stop_tasks;
  reactor_schedule (DeferredCallback d).

Definition _handle_shutdown (signum : Z) : M S unit :=
  log (LogInfo "Received shutdown signal %d, shutting down gracefully."
         [AInt signum]);;
  reactor_schedule CallShutdown.

(** ** The reactor *)

(** The closures of [run].  [log_failure] also prints the traceback of the
    failure at CRITICAL level; that record is left out. *)
Definition log_failure (e : exn) : M S unit := log (LogException e).

Definition run_flush_states_task : M S unit :=
  LoopingCall_start FlushStatesTask.

Definition errback_main (e : exn) : M S unit :=
  log_failure e;;
  LoopingCall_start WorkTask.

Definition errback_flush_states (e : exn) : M S unit :=
  log_failure e;;
  run_flush_states_task.

(** A timer of a running [LoopingCall] fires.  When the function fails,
    the task stops and the errback attached in [run] is called: the work and
    flush-states tasks have one, which restarts them, the status task has
    none. *)
Definition fire (t : TaskName) (f : M S unit) : M S unit :=
  try_except f
    (λ e, modify (set_task t (mkLoopingCall false));;
          match t with
          | WorkTask => errback_main e
          | FlushStatesTask => errback_flush_states e
          | LoggingTask => ret tt
          end).

Definition run_delayed (dc : DelayedCall) : M S unit :=
  match dc with
  | CallShutdown => call_shutdown
  | DeferredCallback d => Deferred_callback d
  | RunFlushStatesTask => run_flush_states_task
  end.

Definition take_delayed (pre post : list DelayedCall) (w : Worker S) : Worker S :=
  set_reactor (λ r, mkReactor (reactor_running r) (pre ++ post)) w.

(** One turn of the event loop: a timer of a running task fires, a
    shutdown signal arrives, or one of the scheduled calls runs. *)
Inductive step : Worker S → Worker S → Prop :=
| step_work w msgs now :
    running (task w) = true →
    step w (fire WorkTask (work msgs now) w).2
| step_flush_states w :
    running (_flush_states_task w) = true →
    step w (fire FlushStatesTask flush_states w).2
| step_log_status w :
    running (_logging_task w) = true →
    step w (fire LoggingTask log_status w).2
| step_signal w signum :
    step w (_handle_shutdown signum w).2
| step_delayed w pre dc post :
    delayed (reactor w) = pre ++ dc :: post →
    step w (run_delayed dc (take_delayed pre post w)).2.

(** [run]: the work and status tasks are started, the start of the
    flush-states task is scheduled after [flush_states_task_delay] seconds
    (what [randint(0, self._flush_interval)] returned), and the reactor runs.
    The first call of each started task is left to [step]; installing the
    signal handlers is the existence of [step_signal]. *)
Definition run (flush_states_task_delay : Z) : M S unit :=
  LoopingCall_start WorkTask;;
  LoopingCall_start LoggingTask;;
  log (LogInfo "Starting flush-states task in %d seconds"
         [AInt flush_states_task_delay]);;
  reactor_schedule RunFlushStatesTask;;
  modify (set_reactor (λ r, mkReactor true (delayed r))).
End Methods.
End BaseStrategyWorker.

(** ** Start-up: the settings, the guard of [__init__], [get_stats_tags]
    and [setup_environment] *)

(** The Python values a settings module holds, as far as start-up looks
    at them. *)
Inductive PyVal :=
| PNone
| PBool (b : bool)
| PInt (n : Z)
| PStr (s : string).

Global Instance PyVal_eq_dec : EqDecision PyVal.
Proof. solve_decision. Defined.

(** [bool(v)] *)
Definition truthy (v : PyVal) : bool :=
  match v with
  | PNone => false
  | PBool b => b
  | PInt n => negb (n =? 0)
  | PStr s => negb (String.eqb s "")
  end.

(** [int] and [bool] values are numbers. *)
Definition number (v : PyVal) : option Z :=
  match v with
  | PInt n => Some n
  | PBool b => Some (if b then 1 else 0)
  | _ => None
  end.

Definition type_name (v : PyVal) : string :=
  match v with
  | PNone => "NoneType"
  | PBool _ => "bool"
  | PInt _ => "int"
  | PStr _ => "str"
  end.

Global Instance Result_ret : MRet Result := λ A a, Ok a.
Global Instance Result_bind : MBind Result :=
  λ A B k m, match m with
             | Ok a => k a
             | Raise e => Raise e
             end.

(** [a >= b] and [a < b] as Python 3 evaluates them: numbers compare by
    value, strings by their characters, and any other pair raises
    [TypeError]. *)
Definition unorderable (op : string) (a b : PyVal) : exn :=
  TypeError ("'" ++ op ++ "' not supported between instances of '"
             ++ type_name a ++ "' and '" ++ type_name b ++ "'").

Definition py_ge (a b : PyVal) : Result bool :=
  match number a, number b with
  | Some x, Some y => Ok (y <=? x)
  | _, _ =>
      match a, b with
      | PStr s, PStr t => Ok (String.leb t s)
      | _, _ => Raise (unorderable ">=" a b)
      end
  end.

Definition py_lt (a b : PyVal) : Result bool :=
  match number a, number b with
  | Some x, Some y => Ok (x <? y)
  | _, _ =>
      match a, b with
      | PStr s, PStr t => Ok (String.ltb s t)
      | _, _ => Raise (unorderable "<" a b)
      end
  end.

(** ["%d" % v] *)
Definition format_d (v : PyVal) : Result string :=
  match number v with
  | Some n => Ok (pretty n)
  | None => Raise (TypeError ("%d format: a number is required, not "
                              ++ type_name v))
  end.

(** [frontera.settings.Settings], outside this file: a dictionary whose
    [get] answers [None] for a key that is not set. *)
Abbreviation Settings := (gmap string PyVal).

Definition settings_get (settings : Settings) (key : string) : PyVal :=
  default PNone (settings !! key).

Definition settings_set (key : string) (value : PyVal) (settings : Settings)
    : Settings :=
  <[key := value]> settings.

(** The first statements of [BaseStrategyWorker.__init__]: the partition
    the worker consumes has to be set, and to be an [int] proper. *)
Definition init_partition_id (settings : Settings) : Result Z :=
  match settings_get settings "SCORING_PARTITION_ID" with
  | PInt partition_id => Ok partition_id
  | _ => Raise (OtherError "AttributeError"
                  "Scoring worker partition id isn't set.")
  end.

(** ** [class StrategyWorker] *)
Module StrategyWorker.
Definition get_stats_tags (settings : Settings) : list (string * PyVal) :=
  [("source", PStr "sw");
   ("partition_id", settings_get settings "SCORING_PARTITION_ID")].
End StrategyWorker.

(** ** [setup_environment] *)

(** What [parser.parse_args()] returns: [--config] is required,
    [--log-level] defaults to [INFO], [--strategy] and [--partition-id]
    to [None]. *)
Record Args := mkArgs {
  args_config : string;
  args_log_level : string;
  args_strategy : option string;
  args_partition_id : option Z
}.

(** Which of the two ways of configuring [logging] was taken. *)
Inductive LoggingSetup :=
| FileConfig (path : PyVal)
| BasicConfig (level : string).

Record Environment (C : Type) := mkEnvironment {
  env_settings : Settings;
  env_strategy_class : C;
  env_logging : LoggingSetup
}.
Arguments mkEnvironment {C}.
Arguments env_settings {C}.
Arguments env_strategy_class {C}.
Arguments env_logging {C}.

Section Setup.
(** [load_object] and [os.path.exists] are outside this file; [settings]
    is what [Settings(module=args.config)] built. *)
Context {C : Type} (load_object : PyVal → Result C)
  (path_exists : PyVal → bool).

(** [args.strategy if args.strategy else settings.get('CRAWLING_STRATEGY')] *)
Definition strategy_classpath (args : Args) (settings : Settings) : PyVal :=
  match args_strategy args with
  | Some s => if truthy (PStr s) then PStr s
              else settings_get settings "CRAWLING_STRATEGY"
  | None => settings_get settings "CRAWLING_STRATEGY"
  end.

(** [args.partition_id if args.partition_id is not None
     else settings.get('SCORING_PARTITION_ID')] *)
Definition partition_id (args : Args) (settings : Settings) : PyVal :=
  match args_partition_id args with
  | Some p => PInt p
  | None => settings_get settings "SCORING_PARTITION_ID"
  end.

(** The returned pair and, with it, how [logging] was configured. *)
Definition setup_environment (args : Args) (settings : Settings)
    : Result (Environment C) :=
  let strategy_classpath := strategy_classpath args settings in
  if negb (truthy strategy_classpath) then
    Raise (ValueError ("Couldn't locate strategy class path. Please supply "
             ++ "it either using command line option or settings file."))
  else
    strategy_class ← load_object strategy_classpath;
    let partition_id := partition_id args settings in
    too_large ← py_ge partition_id (settings_get settings "SPIDER_LOG_PARTITIONS");
    out_of_range ← (if too_large : bool then Ok true
                    else py_lt partition_id (PInt 0));
    if out_of_range : bool then
      shown ← format_d partition_id;
      Raise (ValueError ("Partition id (" ++ shown ++ ") cannot be less than "
               ++ "zero or more than SPIDER_LOG_PARTITIONS."))
    else
      let settings := settings_set "SCORING_PARTITION_ID" partition_id settings in
      let logging_config_path := settings_get settings "LOGGING_CONFIG" in
      Ok (mkEnvironment settings strategy_class
            (if truthy logging_config_path && path_exists logging_config_path
             then FileConfig logging_config_path
             else BasicConfig (args_log_level args))).

(** [__main__] up to the guard of the constructor. *)
Definition main (args : Args) (settings : Settings) : Result (Environment C * Z) :=
  env ← setup_environment args settings;
  partition ← init_partition_id (env_settings env);
  Ok (env, partition).
End Setup.

(** ** Specification vocabulary *)

Section Relations.
Context {S : Type}.

(** [m] relates the state it starts from to the state it leaves, whether
    it returns or raises. *)
Definition preserves (R : relation (Worker S)) {A} (m : M S A) : Prop :=
  ∀ w, R w (m w).2.

(** [m] never raises. *)
Definition total {A} (m : M S A) : Prop := ∀ w, ∃ a, (m w).1 = Ok a.
End Relations.

(** Relations between the state before and the state after. *)
Definition same {S B} (f : Worker S → B) : relation (Worker S) :=
  λ w w', f w' = f w.

(** The calls made in between satisfy [P]. *)
Definition emits {S} (P : list Call → Prop) : relation (Worker S) :=
  λ w w', ∃ d, calls w' = calls w ++ d ∧ P d.

(** [P] holds of no call at all and of two runs one after the other. *)
Class Additive (P : list Call → Prop) : Prop := {
  additive_nil : P [];
  additive_app d1 d2 : P d1 → P d2 → P (d1 ++ d2)
}.

Section WorkerVocabulary.
Context {S : Type} `{!CrawlingStrategy S, !Decoder, !Encoder}.
Import BaseStrategyWorker.

(** The calls a strategy handler can cause through [update_score] and
    [states_context]. *)
Definition op_call (c : Call) : Prop :=
  match c with
  | EncodeUpdateScore _ _ _ | ProducerSend _ _
  | StatesFetch _ | StatesSetStates _ => True
  | _ => False
  end.

(** The request whose [meta] carries the job id that [process_batch]
    checks: none for [add_seeds], [offset] and unknown messages. *)
Definition carried (msg : Event) : option Request :=
  match msg with
  | PageCrawled response => Some response
  | LinksExtracted request _ => Some request
  | RequestError request _ => Some request
  | _ => None
  end.

(** What [process_batch] does with a message, given the worker's job id:
    the argument of [set_states], the handler entered and the argument of
    the [update_cache] that follows it; nothing for a message it drops or
    ignores. *)
Definition handler_of (job : Z) (msg : Event)
    : option (ReqArg * HandlerCall * ReqArg) :=
  match msg with
  | AddSeeds seeds =>
      let seeds := set_jid job <$> seeds in
      Some (Many seeds, HAddSeeds seeds, Many seeds)
  | PageCrawled response =>
      if stale response job then None
      else Some (Many [response], HPageCrawled response, One response)
  | LinksExtracted request links =>
      if stale request job then None
      else Some (Many links, HLinksExtracted request links, Many links)
  | RequestError request error =>
      if stale request job then None
      else Some (One request, HPageError request error, One request)
  | _ => None
  end.

(** The calls of one dispatched message: [set_states], the handler with
    the calls of its operations, and [update_cache] when the handler
    returned ([out] is the exception it raised, if any). *)
Definition handled (a1 : ReqArg) (h : HandlerCall) (a2 : ReqArg)
    (out : option exn) (d : list Call) : Prop :=
  ∃ os, Forall op_call os ∧
    d = [StatesSetStates a1; StrategyEnter h] ++ os ++
        StrategyExit h out ::
          match out with
          | None => [StatesUpdateCache a2]
          | Some _ => []
          end.

Definition raised {A} (r : Result A) : option exn :=
  match r with
  | Ok _ => None
  | Raise e => Some e
  end.

Definition msg_calls (job : Z) (msg : Event) (out : option exn)
    (d : list Call) : Prop :=
  match handler_of job msg with
  | None => d = [] ∧ out = None
  | Some (a1, h, a2) => handled a1 h a2 out d
  end.

(** [stop_tasks] stops exactly the tasks that are running, in the order
    work, flush-states, status, and never raises. *)
Definition running_tasks (w : Worker S) : list TaskName :=
  filter (λ t, running (get_task t w) = true)
    [WorkTask; FlushStatesTask; LoggingTask].

Definition stopped (w : Worker S) : Worker S :=
  mkWorker (job_id w) (consumer_batch_size w) (stats w) (states_context w)
    (strategy w) (mkLoopingCall false) (mkLoopingCall false)
    (mkLoopingCall false) (reactor w)
    (calls w ++ (LoopingCallStop <$> running_tasks w))
    (logs w ++ [LogInfo "Stopping periodic tasks." []]).

(** The statements of [work] between [release] and the statistics. *)
Definition finish_check : M S unit :=
  s ← gets strategy;
  call (StrategyFinished (finished s));;
  if finished s then
    log (LogInfo "Successfully reached the crawling goal." []);;
    log (LogInfo "Finishing." []);;
    d ← stop_tasks;
    reactor_schedule (DeferredCallback d)
  else ret tt.

(** The statements of [work] between [collect_batch] and the statistics. *)
Definition tick_body (batch : list Event) : M S unit :=
  StatesContext.fetch;;
  process_batch batch;;
  UpdateScoreStream.flush;;
  StatesContext.release;;
  finish_check.


(** The log only grows. *)
Definition logs_grow : relation (Worker S) :=
  λ w w', ∃ d, logs w' = logs w ++ d.

(** A message [collect_batch] copes with: it decodes, or [decode] raises
    one of the two exceptions the [except] clause names. *)
Definition caught (m : string) : Prop :=
  match decode m with
  | inr _ => True
  | inl e => is_KeyError_or_TypeError e = true
  end.

(** The messages that decode, in order. *)
Definition decoded (msgs : list string) : list Event :=
  omap (λ m, match decode m with inr msg => Some msg | inl _ => None end) msgs.

(** The three records logged for a message that does not decode. *)
Definition decode_error_records (m : string) (e : exn) : list LogRecord :=
  [LogError "Decoding error:" []; LogException e;
   LogDebug "Message %s" [AStr (hexlify m)]].

Definition pending (w : Worker S) : gset MetaVal :=
  _fingerprints (states_context w).
Definition touched (w : Worker S) : list Request :=
  _requests (states_context w).

(** An empty [pending_fetch] stays empty. *)
Definition keeps_empty : relation (Worker S) :=
  λ w w', pending w = ∅ → pending w' = ∅.



(** A call made outside the strategy's handlers. *)
Definition outside_handler (c : Call) : Prop :=
  match c with
  | StrategyEnter _ | StrategyExit _ _ => False
  | _ => True
  end.

(** The requests of a handler call that the worker writes back after the
    handler: all of them except the [request] of [links_extracted]. *)
Definition written_back (h : HandlerCall) : list Request :=
  match h with
  | HAddSeeds seeds => seeds
  | HPageCrawled response => [response]
  | HLinksExtracted _ links => links
  | HPageError request _ => [request]
  end.

(** Every request handed to a handler. *)
Definition requests_of (h : HandlerCall) : list Request :=
  match h with
  | HAddSeeds seeds => seeds
  | HPageCrawled response => [response]
  | HLinksExtracted request links => request :: links
  | HPageError request _ => [request]
  end.

(** Among the calls [d], [update_cache] covers [r]. *)
Definition cache_updated (d : list Call) (r : Request) : Prop :=
  ∃ a, StatesUpdateCache a ∈ d ∧ covers a r.

Definition written_back_ok (d : list Call) : Prop :=
  ∀ h r, StrategyExit h None ∈ d → r ∈ written_back h → cache_updated d r.

(** The requests a decoded message refers to. *)
Definition event_requests (msg : Event) : list Request :=
  match msg with
  | AddSeeds seeds => seeds
  | PageCrawled response => [response]
  | LinksExtracted request links => request :: links
  | RequestError request _ => [request]
  | _ => []
  end.

Definition fingerprinted (rs : list Request) : Prop :=
  ∀ r, r ∈ rs → is_Some (fingerprint r).

(** The fingerprints of [rs] are all in [F]. *)
Definition loaded (F : gset MetaVal) (rs : list Request) : Prop :=
  ∀ r, r ∈ rs → ∃ fp, fingerprint r = Some fp ∧ fp ∈ F.

(** An enrolled message: if each of its requests has a fingerprint, they
    are all in [F]. *)
Definition enrolled (F : gset MetaVal) (msg : Event) : Prop :=
  fingerprinted (event_requests msg) → loaded F (event_requests msg).

(** Every handler entered among [d] with fingerprints on all its requests
    has them all in [F]. *)
Definition entered_loaded (F : gset MetaVal) (d : list Call) : Prop :=
  ∀ h, StrategyEnter h ∈ d → fingerprinted (requests_of h) →
       loaded F (requests_of h).

(** The calls of the drain once the tasks are stopped. *)
Definition drain_calls : list Call :=
  [StatesFlush; StrategyClose; ManagerStop; ProducerClose; ConsumerClose;
   ReactorStop].



(** The worker's own state: everything but the strategy's internal state
    and the records of calls and log lines. *)
Definition own_state (w : Worker S) :=
  (job_id w, consumer_batch_size w, stats w, states_context w,
   task w, _flush_states_task w, _logging_task w, reactor w).

(** The reactor runs the call scheduled last (the ones before it, timed
    calls, are not due yet). *)
Definition run_last (w : Worker S) : Worker S :=
  match reverse (delayed (reactor w)) with
  | dc :: earlier =>
      (run_delayed dc (take_delayed (reverse earlier) [] w)).2
  | [] => w
  end.

(** A shutdown signal arrives and the reactor runs what it schedules:
    [call_shutdown], then the callback of the [Deferred]. *)
Definition shutdown_signal (signum : Z) (w : Worker S) : Worker S :=
  run_last (run_last (_handle_shutdown signum w).2).

(** The polls of the consumer among the calls: one per call of [work]. *)
Definition is_poll (c : Call) : Prop :=
  match c with
  | ConsumerGetMessages _ => True
  | _ => False
  end.

(** The work task stays stopped and the consumer is not polled. *)
Definition no_work : relation (Worker S) :=
  λ w w', (running (task w) = false → running (task w') = false)
          ∧ emits (Forall (λ c, ¬ is_poll c)) w w'.

(** The statements of [work] between [collect_batch] and the finish check. *)
Definition tick_prefix (batch : list Event) : M S unit :=
  StatesContext.fetch;;
  process_batch batch;;
  UpdateScoreStream.flush;;
  StatesContext.release.

(** The handlers entered among the calls, in order, and those of them
    that returned. *)
Definition entered (d : list Call) : list HandlerCall :=
  omap (λ c, match c with StrategyEnter h => Some h | _ => None end) d.
Definition returned (d : list Call) : list HandlerCall :=
  omap (λ c, match c with StrategyExit h None => Some h | _ => None end) d.

(** The handler calls a batch asks for: one for each message that
    [process_batch] neither drops nor ignores. *)
Definition dispatched (job : Z) (batch : list Event) : list HandlerCall :=
  omap (λ msg, (λ x, x.1.2) <$> handler_of job msg) batch.

(** The counter [process_batch] keeps for a handler, and its increment. *)
Definition counter_of (h : HandlerCall) : Stats → Z :=
  match h with
  | HAddSeeds _ => consumed_add_seeds
  | HPageCrawled _ => consumed_page_crawled
  | HLinksExtracted _ _ => consumed_links_extracted
  | HPageError _ _ => consumed_request_error
  end.
Definition incr_for (h : HandlerCall) : Stats → Stats :=
  match h with
  | HAddSeeds _ => incr_add_seeds
  | HPageCrawled _ => incr_page_crawled
  | HLinksExtracted _ _ => incr_links_extracted
  | HPageError _ _ => incr_request_error
  end.
Definition same_kind (h h' : HandlerCall) : bool :=
  match h, h' with
  | HAddSeeds _, HAddSeeds _ | HPageCrawled _, HPageCrawled _
  | HLinksExtracted _ _, HLinksExtracted _ _
  | HPageError _ _, HPageError _ _ => true
  | _, _ => false
  end.

(** What was kept only grows, at its end. *)
Definition touched_grows : relation (Worker S) :=
  λ w w', touched w `prefix_of` touched w'.

(** No counter of [stats] is smaller on the right. *)
Definition stats_le (st st' : Stats) : Prop :=
  consumed_since_start st ≤ consumed_since_start st'
  ∧ consumed_add_seeds st ≤ consumed_add_seeds st'
  ∧ consumed_page_crawled st ≤ consumed_page_crawled st'
  ∧ consumed_links_extracted st ≤ consumed_links_extracted st'
  ∧ consumed_request_error st ≤ consumed_request_error st'.

Definition counters_grow : relation (Worker S) :=
  λ w w', stats_le (stats w) (stats w').

(** Nothing kept stays nothing kept. *)
Definition keeps_nothing : relation (Worker S) :=
  λ w w', touched w = [] → touched w' = [].
End WorkerVocabulary.

(** ** Sample data *)

Module Examples.
Import BaseStrategyWorker.

Definition request (u : string) (fp : option string) (j : option Z) : Request :=
  mkRequest u
    (from_option (λ f, <["fingerprint" := MBytes f]>) id fp
       (from_option (λ n, <["jid" := MInt n]>) id j ∅)).

(** Requests of job 0, of an older job 6, without [jid], without
    [fingerprint]. *)
Definition page_a : Request := request "/a" (Some "aa") (Some 0).
Definition stale_a : Request := request "/a" (Some "aa") (Some 6).
Definition nojid_a : Request := request "/a" (Some "aa") None.
Definition nofp_a : Request := request "/a" None (Some 0).
Definition seed_a : Request := request "/a" (Some "aa") None.
Definition seed_b : Request := request "/b" (Some "bb") None.
Definition link_c : Request := request "/c" (Some "cc") None.

(** A strategy that does nothing and never finishes. *)
Definition quiet : CrawlingStrategy unit := {|
  add_seeds _ _ := mkRun [] None tt;
  page_crawled _ _ := mkRun [] None tt;
  links_extracted _ _ _ := mkRun [] None tt;
  page_error _ _ _ := mkRun [] None tt;
  finished _ := false;
  close s := s
|}.

(** A strategy whose [page_crawled] raises. *)
Definition failing : CrawlingStrategy unit := {|
  add_seeds _ _ := mkRun [] None tt;
  page_crawled _ _ := mkRun [] (Some (OtherError "ValueError" "boom")) tt;
  links_extracted _ _ _ := mkRun [] None tt;
  page_error _ _ _ := mkRun [] None tt;
  finished _ := false;
  close s := s
|}.

(** A strategy whose [page_crawled] calls [to_fetch] on the response and
    leaves the fetch for later. *)
Definition enrolling : CrawlingStrategy unit := {|
  add_seeds _ _ := mkRun [] None tt;
  page_crawled _ response := mkRun [OpToFetch (One response)] None tt;
  links_extracted _ _ _ := mkRun [] None tt;
  page_error _ _ _ := mkRun [] None tt;
  finished _ := false;
  close s := s
|}.

(** A strategy whose [page_crawled] refreshes the state of a link and
    keeps it for write-back. *)
Definition keeping : CrawlingStrategy unit := {|
  add_seeds _ _ := mkRun [] None tt;
  page_crawled _ _ := mkRun [OpRefreshAndKeep (Many [link_c])] None tt;
  links_extracted _ _ _ := mkRun [] None tt;
  page_error _ _ _ := mkRun [] None tt;
  finished _ := false;
  close s := s
|}.
(** A strategy that scores every page and is finished after the first:
    its state counts the pages seen. *)
Definition one_page : CrawlingStrategy nat := {|
  add_seeds n _ := mkRun [] None n;
  page_crawled n response :=
    mkRun [OpSend response (Some (1 # 2)%Q) (Some true)] None (Datatypes.S n);
  links_extracted n _ _ := mkRun [] None n;
  page_error n _ _ := mkRun [] None n;
  finished n := bool_decide (1 ≤ n)%nat;
  close n := n
|}.

(** A codec: its decoder knows a few messages, raises [KeyError] on a
    message without a type and [ValueError] on bytes that are no message
    at all. *)
Definition sample_decoder : Decoder := λ m,
  if decide (m = "seeds") then inr (AddSeeds [seed_a; seed_b])
  else if decide (m = "page") then inr (PageCrawled page_a)
  else if decide (m = "stale-page") then inr (PageCrawled stale_a)
  else if decide (m = "page-no-jid") then inr (PageCrawled nojid_a)
  else if decide (m = "links") then inr (LinksExtracted page_a [link_c])
  else if decide (m = "links-no-fp") then inr (LinksExtracted nofp_a [link_c])
  else if decide (m = "no-type") then inl (KeyError "type")
  else inl (ValueError "No JSON object could be decoded").

Definition sample_encoder : Encoder := λ r score schedule, url r.

(** A worker just built, with a batch size of 10. *)
Definition fresh {S} `{!CrawlingStrategy S} (s : S) : Worker S := init s 10.

(** A worker as [run] leaves it: work and status tasks started, reactor
    running. *)
Definition started {S} `{!CrawlingStrategy S, !Decoder, !Encoder} (s : S)
    : Worker S :=
  (run 7 (fresh s)).2.
(** A settings module and a command line. *)
Definition sample_settings : Settings :=
  {[ "SPIDER_LOG_PARTITIONS" := PInt 4;
     "SCORING_PARTITION_ID" := PInt 0;
     "CRAWLING_STRATEGY" := PStr "frontera.strategy.basic.BasicCrawlingStrategy";
     "SPIDER_LOG_CONSUMER_BATCH_SIZE" := PInt 512 ]}.

Definition sample_args : Args :=
  mkArgs "config.sw" "INFO" None (Some 3).

(** Class paths stand for the classes they name. *)
Definition sample_load_object (path : PyVal) : Result string :=
  match path with
  | PStr s => Ok s
  | _ => Raise (OtherError "AttributeError" "object has no attribute 'rindex'")
  end.
End Examples.

(** ** Reasoning about computations *)

Ltac munfold :=
  unfold mbind, M_bind, mret, M_ret, bind, ret, raise, gets, modify, call, log,
    try_except in *.

Section Frames.
Context {S : Type}.



Context (R : relation (Worker S)) `{!PreOrder R}.

Lemma preserves_ret {A} (a : A) : preserves R (ret a).
Proof. intros w. reflexivity. Qed.

Lemma preserves_raise {A} e : preserves R (raise (A:=A) e).
Proof. intros w. reflexivity. Qed.

Lemma preserves_gets {A} (f : Worker S → A) : preserves R (gets f).
Proof. intros w. reflexivity. Qed.

Lemma preserves_modify f : (∀ w, R w (f w)) → preserves R (modify f).
Proof. intros H w. apply H. Qed.

Lemma preserves_bind {A B} (m : M S A) (k : A → M S B) :
  preserves R m → (∀ a, preserves R (k a)) → preserves R (m ≫= k).
Proof.
  intros Hm Hk w. specialize (Hm w). munfold.
  destruct (m w) as [[a|e] w1]; simpl in *; [|done].
  etrans; [exact Hm | apply Hk].
Qed.

Lemma preserves_try_except {A} (m : M S A) (h : exn → M S A) :
  preserves R m → (∀ e, preserves R (h e)) → preserves R (try_except m h).
Proof.
  intros Hm Hh w. specialize (Hm w). munfold.
  destruct (m w) as [[a|e] w1]; simpl in *; [done|].
  etrans; [exact Hm | apply Hh].
Qed.

Lemma preserves_for_each {A} (xs : list A) (body : A → M S unit) :
  (∀ x, x ∈ xs → preserves R (body x)) → preserves R (for_each xs body).
Proof.
  induction xs as [|x xs IH]; intros H; simpl.
  - apply preserves_ret.
  - apply (preserves_bind (body x)).
    + apply H. left.
    + intros _. apply IH. intros y Hy. apply H. by right.
Qed.

Lemma total_ret {A} (a : A) : total (ret (S:=S) a).
Proof. intros w. by eexists. Qed.

Lemma total_gets {A} (f : Worker S → A) : total (gets f).
Proof. intros w. by eexists. Qed.

Lemma total_modify f : total (modify (S:=S) f).
Proof. intros w. by eexists. Qed.

Lemma total_bind {A B} (m : M S A) (k : A → M S B) :
  total m → (∀ a, total (k a)) → total (m ≫= k).
Proof.
  intros Hm Hk w. destruct (Hm w) as [a Ha]. munfold.
  destruct (m w) as [[a'|e] w1]; simpl in *; [|done]. apply Hk.
Qed.

Lemma total_try_except {A} (m : M S A) (h : exn → M S A) :
  (∀ e, total (h e)) → total (try_except m h).
Proof.
  intros Hh w. munfold. destruct (m w) as [[a|e] w1]; [by eexists|apply Hh].
Qed.

Lemma total_for_each {A} (xs : list A) (body : A → M S unit) :
  (∀ x, total (body x)) → total (for_each xs body).
Proof.
  intros H. induction xs as [|x xs IH]; simpl.
  - apply total_ret.
  - apply (total_bind (body x)); [apply H | intros _; apply IH].
Qed.

(** A loop whose body never raises runs through a concatenation in two
    stages. *)
Lemma for_each_app {A} (xs ys : list A) (body : A → M S unit) w :
  (∀ x, total (body x)) →
  for_each (xs ++ ys) body w = for_each ys body (for_each xs body w).2.
Proof.
  intros H. revert w. induction xs as [|x xs IH]; intros w; simpl; [done|].
  munfold. destruct (H x w) as [[] Hx].
  destruct (body x w) as [[[]|e] w1]; simpl in *; [apply IH | done].
Qed.
End Frames.


Global Instance same_preorder {S B} (f : Worker S → B) : PreOrder (same f).
Proof. split; [done | intros x y z Hxy Hyz; unfold same in *; congruence]. Qed.



Global Instance emits_preorder {S} P `{!Additive P} : PreOrder (emits (S:=S) P).
Proof.
  split.
  - intros w. exists []. split; [by rewrite app_nil_r | apply additive_nil].
  - intros x y z (d1 & H1 & P1) (d2 & H2 & P2). exists (d1 ++ d2). split.
    + by rewrite H2, H1, app_assoc.
    + by apply additive_app.
Qed.

Global Instance True_additive : Additive (λ _, True).
Proof. by split. Qed.

(** Every call made satisfies [p]. *)
Global Instance Forall_additive (p : Call → Prop) : Additive (Forall p).
Proof. split; [constructor | intros; by apply Forall_app]. Qed.

Create HintDb worker discriminated.
Create HintDb frames.
Global Hint Extern 1 (PreOrder _) => apply _ : frames.
Global Hint Unfold
  StatesContext.meta_fingerprint StatesContext.update_fingerprints
  StatesContext.to_fetch StatesContext.fetch StatesContext.refresh_and_keep
  StatesContext.release StatesContext.flush
  UpdateScoreStream.send UpdateScoreStream.flush
  BaseStrategyWorker.collect_unknown_message
  BaseStrategyWorker.on_unknown_message BaseStrategyWorker.classify
  BaseStrategyWorker.collect_batch BaseStrategyWorker.run_op
  BaseStrategyWorker.strategy_call BaseStrategyWorker.on_add_seeds
  BaseStrategyWorker.on_page_crawled BaseStrategyWorker.on_links_extracted
  BaseStrategyWorker.on_request_error BaseStrategyWorker.dispatch
  BaseStrategyWorker.process_msg BaseStrategyWorker.process_batch
  BaseStrategyWorker.flush_states BaseStrategyWorker.log_status
  BaseStrategyWorker.LoopingCall_start BaseStrategyWorker.LoopingCall_stop
  BaseStrategyWorker.reactor_stop BaseStrategyWorker.reactor_schedule
  BaseStrategyWorker.stop_tasks BaseStrategyWorker._stop_reactor
  BaseStrategyWorker._perform_shutdown BaseStrategyWorker.run_callback
  BaseStrategyWorker.work BaseStrategyWorker.call_shutdown
  BaseStrategyWorker._handle_shutdown BaseStrategyWorker.log_failure
  BaseStrategyWorker.run_flush_states_task BaseStrategyWorker.errback_main
  BaseStrategyWorker.errback_flush_states
  BaseStrategyWorker.fire BaseStrategyWorker.run_delayed
  BaseStrategyWorker.run : worker.

Lemma preserves_handler_body {S} `{!Encoder} (R : relation (Worker S))
    `{!PreOrder R} (r : HandlerRun S) :
  (∀ op, op ∈ ops r → preserves R (BaseStrategyWorker.run_op op)) →
  preserves R (BaseStrategyWorker.handler_body r).
Proof.
  intros Hops. unfold BaseStrategyWorker.handler_body.
  apply (preserves_bind R); [by apply preserves_for_each|].
  intros _. destruct (raises r); [apply preserves_raise | apply preserves_ret];
    apply _.
Qed.

(** Decompose a goal [preserves R m] along the structure of [m]; [leaf]
    closes the goals [R w (f w)] left by the primitive state changes. *)
Ltac frame_apply l :=
  apply l; try lazymatch goal with |- PreOrder _ => apply _ end.
Ltac frame1 leaf :=
  lazymatch goal with
  | |- preserves _ (mbind _ _) => frame_apply @preserves_bind; [|intros ?]
  | |- preserves _ (ret _) => frame_apply @preserves_ret
  | |- preserves _ (mret _) => frame_apply @preserves_ret
  | |- preserves _ (raise _) => frame_apply @preserves_raise
  | |- preserves _ (gets _) => frame_apply @preserves_gets
  | |- preserves _ (modify _) => apply preserves_modify; intros ?; leaf
  | |- preserves _ (call _) => apply preserves_modify; intros ?; leaf
  | |- preserves _ (log _) => apply preserves_modify; intros ?; leaf
  | |- preserves _ (try_except _ _) =>
      frame_apply @preserves_try_except; [|intros ?]
  | |- preserves _ (for_each _ _) =>
      frame_apply @preserves_for_each; intros ? _
  | |- preserves _ (match ?x with _ => _ end) =>
      first [progress cbv beta iota | destruct x]
  | |- preserves _ (BaseStrategyWorker.handler_body _) =>
      first [ solve [eauto with frames]
            | frame_apply @preserves_handler_body; intros ? _ ]
  | |- preserves _ _ =>
      first [ solve [eauto with frames]
            | progress cbv zeta
            | progress autounfold with worker ]
  end.
Ltac frame leaf := repeat frame1 leaf.

Ltac total1 :=
  lazymatch goal with
  | |- total (mbind _ _) => apply total_bind; [|intros ?]
  | |- total (ret _) => apply total_ret
  | |- total (mret _) => apply total_ret
  | |- total (gets _) => apply total_gets
  | |- total (modify _) => apply total_modify
  | |- total (call _) => apply total_modify
  | |- total (log _) => apply total_modify
  | |- total (try_except _ _) => apply total_try_except; intros ?
  | |- total (for_each _ _) => apply total_for_each; intros ?
  | |- total (match ?x with _ => _ end) => destruct x
  | |- total _ =>
      first [ solve [eauto with frames]
            | progress cbv zeta
            | progress autounfold with worker ]
  end.
Ltac totality := repeat total1.

Section Properties.
Context {S : Type} `{!CrawlingStrategy S, !Decoder, !Encoder}.
Import BaseStrategyWorker.

(** Reading the fingerprints changes nothing. *)
Lemma fingerprints_of_pure (rs : list Request) (w : Worker S) :
  StatesContext.fingerprints_of rs w =
    (match mapM fingerprint rs with
     | Some fps => Ok fps
     | None => Raise (KeyError "fingerprint")
     end, w).
Proof.
  induction rs as [|r rs IH]; simpl; [done|].
  unfold StatesContext.meta_fingerprint. munfold.
  destruct (fingerprint r) as [fp|]; simpl; [|done].
  rewrite IH. by destruct (mapM fingerprint rs).
Qed.

Lemma preserves_fingerprints_of (R : relation (Worker S)) `{!PreOrder R} rs :
  preserves R (StatesContext.fingerprints_of rs).
Proof. intros w. rewrite fingerprints_of_pure. reflexivity. Qed.
Hint Resolve preserves_fingerprints_of : frames.

Lemma job_id_process_batch (batch : list Event) :
  preserves (same job_id) (process_batch batch).
Proof. frame ltac:(reflexivity). Qed.

Lemma total_process_batch (batch : list Event) : total (process_batch batch).
Proof. totality. Qed.

Lemma total_process_msg (msg : Event) : total (process_msg msg).
Proof. totality. Qed.

Ltac list_norm := repeat (progress (rewrite <- ?app_assoc; simpl)).

Ltac emits_leaf :=
  first
    [ exists []; split; [simpl; by rewrite app_nil_r | by constructor]
    | eexists [_]; split; [reflexivity | by repeat constructor] ].

(** A handler is entered, performs its operations and is left; the exit
    records whether it raised. *)
Lemma strategy_call_calls (h : HandlerCall) (w : Worker S) :
  ∃ d, Forall op_call d ∧
    calls (strategy_call h w).2 =
      calls w ++ StrategyEnter h :: d ++
        [StrategyExit h (match (strategy_call h w).1 with
                         | Ok _ => None
                         | Raise e => Some e
                         end)].
Proof.
  unfold strategy_call. munfold. simpl.
  set (r := handler_run (strategy w) h).
  set (w1 := set_strategy (next r) (add_call (StrategyEnter h) w)).
  assert (Hb : preserves (emits (Forall op_call)) (handler_body r))
    by frame emits_leaf.
  destruct (Hb w1) as (d & Hd & Pd). exists d. split; [done|].
  destruct (handler_body r w1) as [[[]|e] w2]; simpl in *;
    rewrite Hd; subst w1; simpl; by rewrite <- !app_assoc.
Qed.

Lemma process_msg_stale (msg : Event) (r : Request) (w : Worker S) :
  carried msg = Some r → stale r (job_id w) = true →
  process_msg msg w = (Ok tt, w).
Proof.
  intros Hc Hs. unfold process_msg, dispatch. munfold.
  destruct msg; simplify_eq/=; by rewrite Hs.
Qed.

Lemma process_batch_stale (pre post : list Event) msg r (w : Worker S) :
  carried msg = Some r → stale r (job_id w) = true →
  process_batch (pre ++ msg :: post) w = process_batch (pre ++ post) w.
Proof.
  intros Hc Hs. pose proof (job_id_process_batch pre w) as Hj.
  unfold same, process_batch in *.
  rewrite !for_each_app by apply total_process_msg.
  simpl. munfold. rewrite (process_msg_stale msg r); [done..|].
  by rewrite Hj.
Qed.

Lemma for_each_log_run {A} (xs : list A) (f : A → LogRecord) (w : Worker S) :
  ∃ w', for_each xs (λ x, log (f x)) w = (Ok tt, w') ∧ calls w' = calls w
        ∧ job_id w' = job_id w.
Proof.
  revert w. induction xs as [|x xs IH]; intros w; simpl.
  - by exists w.
  - munfold. simpl. destruct (IH (add_log (f x) w)) as (w' & -> & Hc & Hj).
    by exists w'.
Qed.

Lemma sandwich_calls (a1 a2 : ReqArg) (h : HandlerCall) (w : Worker S) :
  let run := strategy_call h (add_call (StatesSetStates a1) w) in
  ∃ d, handled a1 h a2 (raised run.1) d ∧
    calls run.2 ++ match run.1 with
                   | Ok _ => [StatesUpdateCache a2]
                   | Raise _ => []
                   end = calls w ++ d.
Proof.
  simpl. set (w1 := add_call (StatesSetStates a1) w).
  destruct (strategy_call_calls h w1) as (os & Hos & Hc).
  destruct (strategy_call h w1) as [[[]|e] w2]; simpl in *.
  - exists ([StatesSetStates a1; StrategyEnter h] ++ os ++
             [StrategyExit h None; StatesUpdateCache a2]).
    split; [by exists os|]. rewrite Hc. subst w1. by list_norm.
  - exists ([StatesSetStates a1; StrategyEnter h] ++ os ++
             [StrategyExit h (Some e)]).
    split; [by exists os|]. rewrite Hc. subst w1. by list_norm.
Qed.

Ltac sandwich a1 a2 h w' :=
  let d := fresh "d" in
  let Hh := fresh "Hh" in
  let Hd := fresh "Hd" in
  destruct (sandwich_calls a1 a2 h w') as (d & Hh & Hd);
  exists d;
  destruct (strategy_call h (add_call (StatesSetStates a1) w'))
    as [[[]|?] ?]; simpl in *; rewrite ?app_nil_r in Hd;
  (split; [congruence | exact Hh]).

(** What one message of the batch causes: its calls [d], and whether its
    dispatch raised. *)
Lemma dispatch_calls (msg : Event) (w : Worker S) :
  ∃ d, calls (dispatch msg w).2 = calls w ++ d
       ∧ msg_calls (job_id w) msg (raised (dispatch msg w).1) d.
Proof.
  unfold msg_calls, handler_of.
  assert (Hnil : ∃ d : list Call, calls w = calls w ++ d
                   ∧ d = [] ∧ None = @None exn)
    by (exists []; by rewrite app_nil_r).
  destruct msg as [seeds|response|request links|request error| |];
    try destruct (stale _ (job_id w)) eqn:Hs.
  all: unfold dispatch; munfold; simpl; try rewrite Hs; try exact Hnil.
  all: unfold on_add_seeds, on_page_crawled, on_links_extracted,
         on_request_error; munfold; simpl.
  - destruct (for_each_log_run (set_jid (job_id w) <$> seeds)
                (λ seed, LogDebug "URL: %s" [AStr (url seed)])
                (add_log (LogDebug "Adding %i seeds"
                   [AInt (Z.of_nat (length (set_jid (job_id w) <$> seeds)))]) w))
      as (w' & Hrun & Hc & _).
    unfold log in Hrun. rewrite Hrun. simpl in Hc.
    sandwich (Many (set_jid (job_id w) <$> seeds))
             (Many (set_jid (job_id w) <$> seeds))
             (HAddSeeds (set_jid (job_id w) <$> seeds)) w'.
  - sandwich (Many [response]) (One response) (HPageCrawled response)
      (add_log (LogDebug "Page crawled %s" [AStr (url response)]) w).
  - destruct (for_each_log_run links
                (λ link, LogDebug "URL: %s" [AStr (url link)])
                (add_log (LogDebug "Links extracted %s (%d)"
                   [AStr (url request); AInt (Z.of_nat (length links))]) w))
      as (w' & Hrun & Hc & _).
    unfold log in Hrun. rewrite Hrun. simpl in Hc.
    sandwich (Many links) (Many links) (HLinksExtracted request links) w'.
  - sandwich (One request) (One request) (HPageError request error)
      (add_log (LogDebug "Page error %s (%s)"
         [AStr (url request); AStr error]) w).
Qed.

Lemma process_msg_calls (msg : Event) (w : Worker S) :
  ∃ d out, calls (process_msg msg w).2 = calls w ++ d
           ∧ msg_calls (job_id w) msg out d.
Proof.
  destruct (dispatch_calls msg w) as (d & Hd & Hm).
  exists d, (raised (dispatch msg w).1). split; [|done].
  unfold process_msg. munfold.
  by destruct (dispatch msg w) as [[[]|e] w1].
Qed.

(** A property of call sequences that holds of what every message of a
    batch causes holds of what the batch causes. *)
Lemma process_batch_emits (P : list Call → Prop) `{!Additive P}
    (batch : list Event) (w : Worker S) :
  (∀ msg out d, msg ∈ batch → msg_calls (job_id w) msg out d → P d) →
  emits P w (process_batch batch w).2.
Proof.
  revert w. induction batch as [|msg batch IH]; intros w HP.
  - simpl. reflexivity.
  - unfold process_batch. simpl. munfold.
    destruct (total_process_msg msg w) as [[] Hok].
    destruct (process_msg_calls msg w) as (d & out & Hd & Hm).
    pose proof (job_id_process_batch [msg] w) as Hj.
    unfold same, process_batch in Hj. simpl in Hj. munfold.
    destruct (process_msg msg w) as [[[]|e] w1]; simpl in *; [|done].
    etrans.
    + exists d. split; [exact Hd|]. apply (HP msg out); [left|done].
    + apply IH. intros m' out' d' Hin. rewrite Hj. apply HP. by right.
Qed.

(** C6: [send] hands the encoder exactly [(request, score, not dont_queue)],
    the defaults being score 1.0 and [schedule = True], and pushes that one
    encoded record to the producer with key [None]; nothing else changes.
    [flush] does nothing. *)
Theorem C6_send_one_record_flush_noop
    (w : Worker S) (request : Request) (score : option Q)
    (dont_queue : option bool) :
  let sc := default 1%Q score in
  let schedule := negb (default false dont_queue) in
  UpdateScoreStream.send request score dont_queue w =
    (Ok tt,
     add_call (ProducerSend None (encode_update_score request sc schedule))
       (add_call (EncodeUpdateScore request sc schedule) w))
  ∧ calls (UpdateScoreStream.send request score dont_queue w).2 =
      calls w ++ [EncodeUpdateScore request sc schedule;
                  ProducerSend None (encode_update_score request sc schedule)]
  ∧ calls (UpdateScoreStream.send request None None w).2 =
      calls w ++ [EncodeUpdateScore request 1%Q true;
                  ProducerSend None (encode_update_score request 1%Q true)]
  ∧ UpdateScoreStream.flush w = (Ok tt, w).
Proof.
  unfold UpdateScoreStream.send, UpdateScoreStream.flush. munfold. simpl.
  by rewrite <- !app_assoc.
Qed.

(** C3: in [process_batch], a [page_crawled], [links_extracted] or
    [request_error] message whose [jid] differs from the worker's [job_id] has
    no effect at all (no handler is entered, no counter moves); every
    [add_seeds] message enters [strategy.add_seeds] with seeds whose [jid] has
    been set to [job_id]. *)
Theorem C3_stale_jid_dropped_seeds_stamped
    (pre post : list Event) (msg : Event) (w : Worker S) :
  (∀ r j, carried msg = Some r → jid r = Some j → j ≠ MInt (job_id w) →
     process_batch (pre ++ msg :: post) w = process_batch (pre ++ post) w)
  ∧ (∀ seeds, msg = AddSeeds seeds →
       let stamped := set_jid (job_id w) <$> seeds in
       length stamped = length seeds
       ∧ (∀ seed, seed ∈ stamped → jid seed = Some (MInt (job_id w)))
       ∧ ∃ d1 d2, calls (process_batch (pre ++ msg :: post) w).2 =
           calls w ++ d1 ++
             [StatesSetStates (Many stamped); StrategyEnter (HAddSeeds stamped)]
             ++ d2).
Proof.
  split.
  - intros r j Hc Hj Hne. apply (process_batch_stale pre post msg r); [done|].
    unfold stale. rewrite Hj. by apply bool_decide_eq_true.
  - intros seeds -> stamped. split; [apply length_fmap|]. split.
    + intros seed (s0 & -> & _)%list_elem_of_fmap.
      unfold jid, set_jid. simpl. apply lookup_insert_eq.
    + assert (Hall : ∀ b (w0 : Worker S),
                emits (λ _, True) w0 (process_batch b w0).2).
      { intros b w0. apply process_batch_emits; [|done]. by split. }
      destruct (Hall pre w) as (d1 & H1 & _).
      pose proof (job_id_process_batch pre w) as Hj.
      unfold same, process_batch in *.
      rewrite for_each_app by apply total_process_msg.
      set (w1 := (for_each pre process_msg w).2) in *.
      simpl. munfold.
      destruct (total_process_msg (AddSeeds seeds) w1) as [[] Hok].
      destruct (process_msg_calls (AddSeeds seeds) w1)
        as (d & out & Hd & (os & _ & ->)).
      destruct (process_msg (AddSeeds seeds) w1) as [[[]|e] w2];
        simpl in *; [|done].
      destruct (Hall post w2) as (d2 & H2 & _).
      exists d1. eexists. rewrite H2, Hd, H1, Hj. fold stamped.
      rewrite <- !app_assoc. simpl. reflexivity.
Qed.

Lemma classify_enrols_carried (msg : Event) (r : Request) fp (w : Worker S) :
  carried msg = Some r → fingerprint r = Some fp →
  fp ∈ _fingerprints (states_context (classify msg w).2).
Proof.
  intros Hc Hfp. unfold classify, StatesContext.to_fetch,
    StatesContext.meta_fingerprint, StatesContext.update_fingerprints.
  destruct msg; simplify_eq/=; munfold; rewrite Hfp; simpl.
  - set_solver.
  - rewrite fingerprints_of_pure.
    destruct (mapM fingerprint links); simpl; set_solver.
  - set_solver.
Qed.

(** C10: a [page_crawled], [links_extracted] or [request_error] message
    whose [meta] has no [jid] key is dropped by [process_batch] like a stale
    one: it has no effect at all, although [collect_batch] put it in the batch
    and enrolled the fingerprint of its request for the fetch. *)
Theorem C10_missing_jid_dropped
    (pre post : list Event) (msg : Event) (r : Request) (w : Worker S) :
  carried msg = Some r → jid r = None →
  process_batch (pre ++ msg :: post) w = process_batch (pre ++ post) w
  ∧ ∀ m fp, decode m = inr msg → fingerprint r = Some fp →
      (collect_batch [m] w).1 = Ok ([msg], 1)
      ∧ fp ∈ _fingerprints (states_context (collect_batch [m] w).2).
Proof.
  intros Hc Hj. split.
  - apply (process_batch_stale pre post msg r); [done|].
    unfold stale. by rewrite Hj.
  - intros m fp Hdec Hfp. unfold collect_batch. munfold. simpl.
    rewrite Hdec. munfold.
    pose proof (classify_enrols_carried msg r fp
                  (add_call (ConsumerGetMessages (consumer_batch_size w)) w)
                  Hc Hfp) as Hin.
    by destruct (classify msg _) as [[[]|e] w1].
Qed.

Lemma handled_exit a1 h a2 out d h' exc :
  handled a1 h a2 out d → StrategyExit h' (Some exc) ∈ d →
  h' = h ∧ out = Some exc.
Proof.
  intros (os & Hos & ->) Hin. simpl in Hin.
  rewrite !elem_of_cons, elem_of_app, elem_of_cons in Hin.
  destruct Hin as [H1|[H1|[H1|[H1|H1]]]]; try done.
  - rewrite Forall_forall in Hos. by apply Hos in H1.
  - by simplify_eq.
  - destruct out; repeat (apply elem_of_cons in H1 as [H1|H1]; [done|]);
      by apply elem_of_nil in H1.
Qed.

(** C5: [process_batch] never raises; when the handler of a message raises,
    the exception leaves [dispatch], is caught and logged by [process_batch],
    and the messages after it are processed from the state it left. *)
Theorem C5_handler_exception_contained
    (pre post : list Event) (msg : Event) (w : Worker S) :
  let w1 := (process_batch pre w).2 in
  (process_batch (pre ++ msg :: post) w).1 = Ok tt
  ∧ process_batch (pre ++ msg :: post) w =
      process_batch post (process_msg msg w1).2
  ∧ ∀ h exc d,
      calls (dispatch msg w1).2 = calls w1 ++ d →
      StrategyExit h (Some exc) ∈ d →
      (dispatch msg w1).1 = Raise exc
      ∧ process_msg msg w1 =
          (Ok tt, add_log (LogException exc) (dispatch msg w1).2).
Proof.
  intros w1. split; [|split].
  - destruct (total_process_batch (pre ++ msg :: post) w) as [[] Hok]. done.
  - unfold process_batch in *. subst w1.
    rewrite for_each_app by apply total_process_msg. simpl. munfold.
    destruct (total_process_msg msg (for_each pre process_msg w).2) as [[] Hok].
    by destruct (process_msg msg _) as [[[]|e] w2].
  - intros h exc d Hd Hin.
    destruct (dispatch_calls msg w1) as (d' & Hd' & Hm).
    assert (d' = d) as -> by (rewrite Hd in Hd'; by apply app_inv_head in Hd').
    unfold msg_calls in Hm.
    destruct (handler_of (job_id w1) msg) as [[[a1 h'] a2]|].
    + destruct (handled_exit _ _ _ _ _ _ _ Hm Hin) as [_ Hout].
      unfold process_msg. munfold.
      destruct (dispatch msg w1) as [[[]|e] w2]; simpl in *; by simplify_eq.
    + destruct Hm as [-> _]. by apply elem_of_nil in Hin.
Qed.

(** *** The stages of one work tick *)

Lemma stop_tasks_run (w : Worker S) :
  stop_tasks w = (Ok [PerformShutdown; StopReactor], stopped w).
Proof.
  destruct w as [j b st sc s [t1] [t2] [t3] r cs ls].
  unfold stop_tasks, LoopingCall_stop, stopped, running_tasks. munfold.
  destruct t1, t2, t3; unfold set_task, add_call, add_log; simpl;
    rewrite ?app_nil_r; by list_norm.
Qed.

Lemma total_stop_tasks : total (S:=S) stop_tasks.
Proof. intros w. rewrite stop_tasks_run. by eexists. Qed.
Hint Resolve total_stop_tasks : frames.

Lemma total_tick_body (batch : list Event) : total (tick_body batch).
Proof. unfold tick_body, finish_check. totality. Qed.

Lemma work_unfold (msgs : list string) (now : string) (w : Worker S) :
  work msgs now w =
    match collect_batch msgs w with
    | (Ok bc, w1) =>
        (Ok tt, set_stats (set_consumed bc.2 now) (tick_body bc.1 w1).2)
    | (Raise e, w1) => (Raise e, w1)
    end.
Proof.
  unfold work. munfold.
  destruct (collect_batch msgs w) as [[bc|e] w1]; [|done]. simpl.
  pose proof (total_tick_body bc.1 w1) as [[] Hok]. revert Hok.
  unfold tick_body, finish_check. munfold. simpl.
  destruct (process_batch _ _) as [[[]|e] w2]; [|done]. simpl.
  unfold UpdateScoreStream.flush, ret. simpl.
  destruct (finished _); [|done]. simpl.
  by rewrite stop_tasks_run.
Qed.

Lemma collect_loop_frame {B} (f : Worker S → B) msgs batch consumed :
  (∀ l w, f (add_log l w) = f w) →
  (∀ g w, f (set_states_context g w) = f w) →
  preserves (same f) (collect_loop msgs batch consumed).
Proof.
  intros Hl Hs. revert batch consumed.
  induction msgs as [|m msgs IH]; intros batch consumed; simpl.
  - apply preserves_ret; apply _.
  - destruct (decode m) as [e|msg]; [destruct (is_KeyError_or_TypeError e)|].
    + frame ltac:(unfold same; by rewrite ?Hl, ?Hs).
    + apply preserves_raise; apply _.
    + frame_apply @preserves_bind; [|intros ?; apply IH].
      frame ltac:(unfold same; by rewrite ?Hl, ?Hs).
Qed.

Global Instance logs_grow_preorder : PreOrder (logs_grow (S:=S)).
Proof.
  split.
  - intros w. exists []. by rewrite app_nil_r.
  - intros x y z [d1 H1] [d2 H2]. exists (d1 ++ d2).
    by rewrite H2, H1, app_assoc.
Qed.

Ltac logs_leaf :=
  first [ exists []; simpl; by rewrite app_nil_r | by eexists [_] ].

Lemma collect_loop_logs_grow msgs batch consumed :
  preserves (logs_grow (S:=S)) (collect_loop msgs batch consumed).
Proof.
  revert batch consumed.
  induction msgs as [|m msgs IH]; intros batch consumed; simpl.
  - apply preserves_ret; apply _.
  - destruct (decode m) as [e|msg]; [destruct (is_KeyError_or_TypeError e)|].
    + frame logs_leaf.
    + apply preserves_raise; apply _.
    + frame_apply @preserves_bind; [|intros ?; apply IH].
      frame logs_leaf.
Qed.

Lemma collect_loop_caught (msgs : list string) :
  Forall caught msgs → ∀ batch consumed (w : Worker S),
  ∃ w1, collect_loop msgs batch consumed w =
          (Ok (batch ++ decoded msgs, consumed + Z.of_nat (length msgs)), w1)
    ∧ ∀ m e, m ∈ msgs → decode m = inl e →
        ∃ l1 l2, logs w1 = logs w ++ l1 ++ decode_error_records m e ++ l2.
Proof.
  induction 1 as [|m msgs Hm _ IH]; intros batch consumed w.
  - exists w. simpl. rewrite app_nil_r, Z.add_0_r. split; [done|].
    intros m e Hin. by apply elem_of_nil in Hin.
  - unfold caught in Hm. unfold decoded. simpl. fold (decoded msgs).
    destruct (decode m) as [e|msg] eqn:Hdec.
    + rewrite Hm. munfold. simpl.
      set (w' := add_log _ (add_log _ (add_log _ w))).
      destruct (IH batch (consumed + 1) w') as (w1 & Hrun & Hlogs).
      exists w1. split.
      { rewrite Hrun. do 3 f_equal. lia. }
      intros m' e' [->|Hin]%elem_of_cons Hd'.
      * destruct (collect_loop_logs_grow msgs batch (consumed + 1) w')
          as [dl Hdl].
        rewrite Hrun in Hdl. simpl in Hdl. exists [], dl.
        assert (e' = e) as -> by congruence.
        rewrite Hdl. subst w'. simpl. by list_norm.
      * destruct (Hlogs m' e' Hin Hd') as (l1 & l2 & ->).
        exists (decode_error_records m e ++ l1), l2.
        subst w'. simpl. by list_norm.
    + munfold.
      assert (Hc : total (try_except (classify (S:=S) msg)
                                     (λ exc, log (LogException exc))))
        by totality.
      assert (Hg : preserves (logs_grow (S:=S))
                     (try_except (classify (S:=S) msg)
                                 (λ exc, log (LogException exc))))
        by frame logs_leaf.
      destruct (Hc w) as [[] Hok]. destruct (Hg w) as [dl0 Hdl0].
      munfold.
      destruct (classify msg w) as [[[]|e] w0] eqn:Hcl; simpl in *.
      * destruct (IH (batch ++ [msg]) (consumed + 1) w0) as (w1 & Hrun & Hlogs).
        exists w1. split.
        { rewrite Hrun. rewrite <- app_assoc. simpl. do 3 f_equal. lia. }
        intros m' e' [->|Hin]%elem_of_cons Hd'; [congruence|].
        destruct (Hlogs m' e' Hin Hd') as (l1 & l2 & ->).
        exists (dl0 ++ l1), l2. rewrite Hdl0. by list_norm.
      * destruct (IH (batch ++ [msg]) (consumed + 1)
                    (add_log (LogException e) w0)) as (w1 & Hrun & Hlogs).
        exists w1. split.
        { rewrite Hrun. rewrite <- app_assoc. simpl. do 3 f_equal. lia. }
        intros m' e' [->|Hin]%elem_of_cons Hd'; [congruence|].
        destruct (Hlogs m' e' Hin Hd') as (l1 & l2 & ->).
        exists (dl0 ++ l1), l2. simpl. rewrite Hdl0. by list_norm.
Qed.

Lemma collect_batch_frame {B} (f : Worker S → B) msgs :
  (∀ l w, f (add_log l w) = f w) →
  (∀ g w, f (set_states_context g w) = f w) →
  (∀ c w, f (add_call c w) = f w) →
  preserves (same f) (collect_batch msgs).
Proof.
  intros Hl Hs Hc. pose proof (collect_loop_frame f msgs [] 0 Hl Hs).
  unfold collect_batch. frame ltac:(unfold same; by rewrite ?Hc).
Qed.

Lemma tick_body_consumed_since_start (batch : list Event) :
  preserves (same (λ w, consumed_since_start (stats w))) (tick_body batch).
Proof. unfold tick_body, finish_check. frame ltac:(reflexivity). Qed.

(** C4 (amended): when every message either decodes or makes [decode] raise
    [KeyError] or [TypeError], [collect_batch] returns the decoded messages in
    order and counts all messages; for each message that did not decode it
    logged the error and the hex dump; [work] then processes exactly the
    decoded messages and adds the full count to [consumed_since_start]. *)
Theorem C4_caught_decode_errors_isolated
    (msgs : list string) (now : string) (w : Worker S) :
  Forall caught msgs →
  ∃ w1,
    collect_batch msgs w = (Ok (decoded msgs, Z.of_nat (length msgs)), w1)
    ∧ (∀ m e, m ∈ msgs → decode m = inl e →
         ∃ l1 l2, logs w1 = logs w ++ l1 ++ decode_error_records m e ++ l2)
    ∧ work msgs now w =
        (Ok tt, set_stats (set_consumed (Z.of_nat (length msgs)) now)
                  (tick_body (decoded msgs) w1).2)
    ∧ consumed_since_start (stats (work msgs now w).2) =
        consumed_since_start (stats w) + Z.of_nat (length msgs).
Proof.
  intros Hall.
  destruct (collect_loop_caught msgs Hall [] 0
              (add_call (ConsumerGetMessages (consumer_batch_size w)) w))
    as (w1 & Hrun & Hlogs).
  assert (Hcb : collect_batch msgs w =
                  (Ok (decoded msgs, Z.of_nat (length msgs)), w1)).
  { unfold collect_batch. munfold. simpl. by rewrite Hrun. }
  exists w1. split; [done|]. split; [exact Hlogs|].
  rewrite work_unfold, Hcb. simpl. split; [done|].
  rewrite (tick_body_consumed_since_start (decoded msgs) w1).
  pose proof (collect_batch_frame (λ w, consumed_since_start (stats w)) msgs
                ltac:(done) ltac:(done) ltac:(done) w) as Hf.
  unfold same in Hf. rewrite Hcb in Hf. simpl in Hf. by rewrite Hf.
Qed.

(** *** The scratch state between batches *)

Global Instance keeps_empty_preorder : PreOrder (keeps_empty (S:=S)).
Proof.
  split; [intros x Hx; exact Hx|].
  intros x y z Hxy Hyz Hx. exact (Hyz (Hxy Hx)).
Qed.




Lemma finish_check_states_context :
  preserves (same states_context) finish_check.
Proof. unfold finish_check. frame ltac:(reflexivity). Qed.

Lemma tick_body_scratch (batch : list Event) (w : Worker S) :
  ∃ w2, process_batch batch (StatesContext.fetch w).2 = (Ok tt, w2)
        ∧ touched (tick_body batch w).2 = []
        ∧ pending (tick_body batch w).2 = pending w2.
Proof.
  unfold tick_body. munfold.
  assert (Hf : (StatesContext.fetch w).1 = Ok tt) by done.
  destruct (StatesContext.fetch w) as [[[]|?] w0]; simplify_eq/=.
  destruct (total_process_batch batch w0) as [[] Hok].
  destruct (process_batch batch w0) as [[[]|e] w2]; simplify_eq/=.
  exists w2. split; [done|].
  unfold UpdateScoreStream.flush, StatesContext.release. munfold. simpl.
  pose proof (finish_check_states_context
    (set_states_context (λ c, mkStatesContext [] (_fingerprints c))
       (add_call (StatesUpdateCache (Many (_requests (states_context w2)))) w2)))
    as Hf.
  unfold same, touched, pending in *. by rewrite Hf.
Qed.


(** *** The calls of one work tick *)

Lemma finish_check_emits (P : list Call → Prop) `{!Additive P} :
  (∀ c, outside_handler c → P [c]) →
  preserves (emits P) finish_check.
Proof.
  intros Hc. unfold finish_check.
  frame ltac:(first
    [ exists []; split; [simpl; by rewrite app_nil_r | apply additive_nil]
    | eexists [_]; split; [reflexivity | by apply Hc] ]).
Qed.

(** The calls of a tick after [collect_batch]: the fetch of everything
    enrolled, then calls that satisfy [P] as soon as the calls of every
    message do and every single call outside the handlers does. *)
Lemma tick_body_calls (P : list Call → Prop) `{!Additive P}
    (batch : list Event) (w : Worker S) :
  (∀ msg out d, msg ∈ batch → msg_calls (job_id w) msg out d → P d) →
  (∀ c, outside_handler c → P [c]) →
  ∃ d, calls (tick_body batch w).2 = calls w ++ StatesFetch (pending w) :: d
       ∧ P d.
Proof.
  intros Hmsg Hc. unfold tick_body. munfold.
  assert (Hf : StatesContext.fetch w =
                 (Ok tt, set_states_context
                           (λ c, mkStatesContext (_requests c) ∅)
                           (add_call (StatesFetch (pending w)) w))) by done.
  rewrite Hf. clear Hf.
  set (w0 := set_states_context _ _).
  destruct (total_process_batch batch w0) as [[] Hok].
  destruct (process_batch_emits P batch w0) as (d1 & Hd1 & P1).
  { intros msg out d Hin. by apply Hmsg. }
  destruct (process_batch batch w0) as [[[]|e] w2]; simplify_eq/=.
  unfold UpdateScoreStream.flush, StatesContext.release. munfold. simpl.
  set (w3 := set_states_context _ _).
  destruct (finish_check_emits P Hc w3) as (d2 & Hd2 & P2).
  exists (d1 ++ [StatesUpdateCache (Many (_requests (states_context w2)))]
             ++ d2).
  split.
  - rewrite Hd2. subst w3. simpl. rewrite Hd1. subst w0. simpl. by list_norm.
  - repeat apply additive_app; [done| |done]. by apply Hc.
Qed.

Lemma collect_batch_calls (msgs : list string) (w : Worker S) :
  calls (collect_batch msgs w).2 =
    calls w ++ [ConsumerGetMessages (consumer_batch_size w)]
  ∧ job_id (collect_batch msgs w).2 = job_id w.
Proof.
  unfold collect_batch. munfold. simpl.
  set (w0 := add_call _ w). split.
  - by rewrite (collect_loop_frame calls msgs [] 0 ltac:(done) ltac:(done) w0).
  - by rewrite (collect_loop_frame job_id msgs [] 0 ltac:(done) ltac:(done) w0).
Qed.

(** The calls of [work]: the poll; then, unless [collect_batch] raised, the
    fetch of what was enrolled and the calls of the batch. *)
Lemma work_calls (P : list Call → Prop) `{!Additive P}
    (msgs : list string) (now : string) (w : Worker S) :
  (∀ c, outside_handler c → P [c]) →
  ∃ d, calls (work msgs now w).2 =
         calls w ++ ConsumerGetMessages (consumer_batch_size w) :: d
    ∧ match collect_batch msgs w with
      | (Ok bc, w1) =>
          (∀ msg out d, msg ∈ bc.1 → msg_calls (job_id w) msg out d → P d) →
          ∃ d', d = StatesFetch (pending w1) :: d' ∧ P d'
      | (Raise _, _) => d = []
      end.
Proof.
  intros Hc. rewrite work_unfold.
  destruct (collect_batch_calls msgs w) as [Hcalls Hjob].
  destruct (collect_batch msgs w) as [[bc|e] w1]; simpl in *.
  - destruct (tick_body_calls (λ _, True) bc.1 w1) as (d & Hd & _);
      [done..|].
    exists (StatesFetch (pending w1) :: d). split.
    + rewrite Hd, Hcalls. by list_norm.
    + intros Hmsg.
      destruct (tick_body_calls P bc.1 w1) as (d' & Hd' & P');
        [by rewrite Hjob|done|].
      exists d'. split; [|done]. rewrite Hd in Hd'.
      by apply app_inv_head in Hd'.
  - exists []. by rewrite Hcalls.
Qed.

(** *** Cache write-back *)

Global Instance written_back_ok_additive : Additive written_back_ok.
Proof.
  split; [intros h r Hin; by apply elem_of_nil in Hin|].
  intros d1 d2 H1 H2 h r [Hin|Hin]%elem_of_app Hr.
  - destruct (H1 h r Hin Hr) as (a & Ha & Hc). exists a.
    split; [apply elem_of_app; by left | done].
  - destruct (H2 h r Hin Hr) as (a & Ha & Hc). exists a.
    split; [apply elem_of_app; by right | done].
Qed.


Lemma handled_members a1 h a2 out d c :
  handled a1 h a2 out d → c ∈ d →
  c = StatesSetStates a1 ∨ c = StrategyEnter h ∨ op_call c
  ∨ c = StrategyExit h out ∨ (out = None ∧ c = StatesUpdateCache a2).
Proof.
  intros (os & Hos & ->) Hin. simpl in Hin.
  rewrite !elem_of_cons, elem_of_app, elem_of_cons in Hin.
  rewrite Forall_forall in Hos.
  destruct Hin as [H1|[H1|[H1|[H1|H1]]]].
  - by left.
  - right; by left.
  - right; right; left. by apply Hos.
  - right; right; right; by left.
  - destruct out; [by apply elem_of_nil in H1|].
    apply list_elem_of_singleton in H1. by repeat right.
Qed.



(** *** State load *)

Lemma loaded_mono F F' rs : F ⊆ F' → loaded F rs → loaded F' rs.
Proof.
  intros HF Hl r Hr. destruct (Hl r Hr) as (fp & ? & ?).
  exists fp. split; [done|]. by apply HF.
Qed.

Lemma mapM_fingerprint_loaded rs fps :
  mapM fingerprint rs = Some fps → loaded (list_to_set fps) rs.
Proof.
  intros Hm%mapM_Some_1 r Hr.
  apply list_elem_of_lookup in Hr as [i Hi].
  destruct (Forall2_lookup_l _ _ _ _ _ Hm Hi) as (fp & Hfp & Hr).
  exists fp. split; [done|]. apply elem_of_list_to_set.
  apply list_elem_of_lookup. by exists i.
Qed.

Lemma fingerprinted_mapM rs :
  fingerprinted rs → is_Some (mapM fingerprint rs).
Proof.
  intros Hf. apply mapM_is_Some, Forall_forall. intros r Hr. by apply Hf.
Qed.

(** Classifying a message only adds to [pending_fetch], and adds the
    fingerprints of all its requests when each of them has one. *)
Lemma classify_enrols (msg : Event) (w : Worker S) :
  pending w ⊆ pending (classify msg w).2
  ∧ (fingerprinted (event_requests msg) →
     loaded (pending (classify msg w).2) (event_requests msg)).
Proof.
  unfold classify, StatesContext.to_fetch, StatesContext.meta_fingerprint,
    StatesContext.update_fingerprints, collect_unknown_message, pending.
  destruct msg as [seeds|response|request links|request error| |]; simpl.
  - munfold. rewrite fingerprints_of_pure. split.
    + destruct (mapM fingerprint seeds); simpl; set_solver.
    + intros [fps Hm]%fingerprinted_mapM. rewrite Hm. simpl.
      eapply loaded_mono; [|by apply mapM_fingerprint_loaded]. set_solver.
  - munfold. split.
    + destruct (fingerprint response); simpl; set_solver.
    + intros Hf r ->%list_elem_of_singleton.
      destruct (Hf response) as [fp Hfp]; [by left|]. rewrite Hfp. simpl.
      exists fp. split; [done|set_solver].
  - munfold. split.
    + destruct (fingerprint request); simpl; [|done].
      rewrite fingerprints_of_pure.
      destruct (mapM fingerprint links); simpl; set_solver.
    + intros Hf. destruct (Hf request) as [fp Hfp]; [by left|].
      rewrite Hfp. simpl. rewrite fingerprints_of_pure.
      destruct (fingerprinted_mapM links) as [fps Hm].
      { intros r Hr. apply Hf. by right. }
      rewrite Hm. simpl. intros r [->|Hr]%elem_of_cons.
      * exists fp. split; [done|set_solver].
      * destruct (mapM_fingerprint_loaded _ _ Hm r Hr) as (fp' & ? & ?).
        exists fp'. split; [done|set_solver].
  - munfold. split.
    + destruct (fingerprint request); simpl; set_solver.
    + intros Hf r ->%list_elem_of_singleton.
      destruct (Hf request) as [fp Hfp]; [by left|]. rewrite Hfp. simpl.
      exists fp. split; [done|set_solver].
  - split; [done|]. intros _ r Hr. by apply elem_of_nil in Hr.
  - split; [done|]. intros _ r Hr. by apply elem_of_nil in Hr.
Qed.

Lemma collect_loop_enrols (msgs : list string) :
  ∀ batch consumed (w : Worker S) bc w1,
  collect_loop msgs batch consumed w = (Ok bc, w1) →
  pending w ⊆ pending w1
  ∧ ∀ msg, msg ∈ bc.1 → msg ∈ batch ∨ enrolled (pending w1) msg.
Proof.
  induction msgs as [|m msgs IH]; intros batch consumed w bc w1; simpl.
  - munfold. intros [= <- <-]. split; [done|]. intros msg Hin. by left.
  - destruct (decode m) as [e|msg0].
    + destruct (is_KeyError_or_TypeError e); [|done].
      munfold. simpl. intros Hrun. by apply IH in Hrun.
    + munfold. destruct (classify_enrols msg0 w) as [Hsub Hen].
      intros Hrun.
      assert (∃ w0, collect_loop msgs (batch ++ [msg0]) (consumed + 1) w0 =
                      (Ok bc, w1)
                    ∧ pending w0 = pending (classify msg0 w).2)
        as (w0 & Hrun' & Hp).
      { destruct (classify msg0 w) as [[[]|e] w'];
          [by exists w' | by exists (add_log (LogException e) w')]. }
      clear Hrun. apply IH in Hrun' as [Hsub' Hin]. rewrite <- Hp in *.
      split; [by etrans|].
      intros msg Hmsg. destruct (Hin msg Hmsg) as [Hb|He]; [|by right].
      apply elem_of_app in Hb as [Hb|Hb]; [by left|].
      apply list_elem_of_singleton in Hb as ->. right.
      intros Hf. eapply loaded_mono; [exact Hsub'|]. by apply Hen.
Qed.

Lemma fingerprint_set_jid (j : Z) (r : Request) :
  fingerprint (set_jid j r) = fingerprint r.
Proof. unfold fingerprint, set_jid. simpl. by rewrite lookup_insert_ne. Qed.

Global Instance entered_loaded_additive F : Additive (entered_loaded F).
Proof.
  split; [intros h Hin; by apply elem_of_nil in Hin|].
  intros d1 d2 H1 H2 h [Hin|Hin]%elem_of_app; [by apply H1 | by apply H2].
Qed.

Lemma handler_of_loaded F job msg a1 h a2 :
  handler_of job msg = Some (a1, h, a2) → enrolled F msg →
  fingerprinted (requests_of h) → loaded F (requests_of h).
Proof.
  unfold handler_of, enrolled. intros Hh Hen Hf.
  destruct msg; try destruct (stale _ job); simplify_eq/=; try by apply Hen.
  assert (Hseeds : fingerprinted seeds).
  { intros r Hr. rewrite <- (fingerprint_set_jid job).
    apply Hf, list_elem_of_fmap. by exists r. }
  intros r' (r & -> & Hr)%list_elem_of_fmap.
  rewrite fingerprint_set_jid. by apply Hen.
Qed.

Lemma msg_calls_entered_loaded F job msg out d :
  enrolled F msg → msg_calls job msg out d → entered_loaded F d.
Proof.
  unfold msg_calls. intros Hen.
  destruct (handler_of job msg) as [[[a1 h] a2]|] eqn:Hh.
  - intros Hd h' Hin Hf.
    destruct (handled_members _ _ _ _ _ _ Hd Hin) as [?|[?|[?|[?|[? ?]]]]];
      try done.
    simplify_eq. by eapply handler_of_loaded.
  - intros [-> _] h Hin. by apply elem_of_nil in Hin.
Qed.

(** C2 (amended): among the calls of one work tick, a handler is entered
    only after the poll and the fetch of [pending_fetch], and when each of the
    requests it is given has a fingerprint (so that classifying its message in
    [collect_batch] raised nothing), that fetch included them all. *)
Theorem C2_state_loaded_before_dispatch
    (msgs : list string) (now : string) (w : Worker S) (d : list Call) :
  calls (work msgs now w).2 = calls w ++ d →
  ∀ h, StrategyEnter h ∈ d →
    ∃ F d', d = [ConsumerGetMessages (consumer_batch_size w); StatesFetch F]
                ++ d'
      ∧ F = pending (collect_batch msgs w).2
      ∧ StrategyEnter h ∈ d'
      ∧ (fingerprinted (requests_of h) → loaded F (requests_of h)).
Proof.
  intros Hd h Hin.
  set (F := pending (collect_batch msgs w).2).
  destruct (work_calls (entered_loaded F) msgs now w) as (d0 & Hd0 & Hw).
  { intros c Hc h' Hin'. apply list_elem_of_singleton in Hin'. by subst. }
  rewrite Hd in Hd0. apply app_inv_head in Hd0. subst d.
  pose proof (collect_loop_enrols msgs [] 0
                (add_call (ConsumerGetMessages (consumer_batch_size w)) w))
    as Hen.
  unfold collect_batch in Hw, F. munfold. simpl in Hw, F.
  destruct (collect_loop msgs [] 0 _) as [[bc|e] w1]; simpl in *.
  - destruct (Hen bc w1 eq_refl) as [_ Hbatch].
    destruct Hw as (d' & -> & Pd').
    { intros msg out d Hmsg. apply msg_calls_entered_loaded.
      destruct (Hbatch msg Hmsg) as [Hnil|?]; [|done].
      by apply elem_of_nil in Hnil. }
    exists F, d'. split; [done|]. split; [done|].
    assert (Hin' : StrategyEnter h ∈ d').
    { rewrite !elem_of_cons in Hin. by destruct Hin as [?|[?|?]]. }
    split; [done|]. by apply Pd'.
  - subst d0. rewrite elem_of_cons in Hin.
    destruct Hin as [?|Hin]; [done|]. by apply elem_of_nil in Hin.
Qed.

(** *** Shutdown *)





Global Instance no_work_preorder : PreOrder (no_work (S:=S)).
Proof.
  split.
  - intros w. split; [done|reflexivity].
  - intros x y z [H1 E1] [H2 E2]. split; [auto|by etrans].
Qed.





Lemma total_tick_prefix (batch : list Event) : total (tick_prefix batch).
Proof. unfold tick_prefix. totality. Qed.

Lemma tick_body_prefix (batch : list Event) (w : Worker S) :
  tick_body batch w = finish_check (tick_prefix batch w).2.
Proof.
  destruct (total_tick_prefix batch w) as [[] Hok]. revert Hok.
  unfold tick_body, tick_prefix. munfold.
  destruct (StatesContext.fetch w) as [[[]|?] w0]; [|done].
  destruct (process_batch batch w0) as [[[]|?] w1]; [|done].
  unfold UpdateScoreStream.flush, ret. simpl.
  by destruct (StatesContext.release w1) as [[[]|?] w2].
Qed.









Global Instance covers_dec (a : ReqArg) (r : Request) : Decision (covers a r).
Proof. destruct a; simpl; apply _. Defined.

Lemma cache_updated_Exists (d : list Call) (r : Request) :
  cache_updated d r ↔
  Exists (λ c, match c with
               | StatesUpdateCache a => covers a r
               | _ => False
               end) d.
Proof.
  rewrite Exists_exists. split.
  - intros (a & Hin & Hc). by exists (StatesUpdateCache a).
  - intros (c & Hin & Hc). destruct c; try done. by eexists.
Qed.

Global Instance cache_updated_dec (d : list Call) (r : Request) :
  Decision (cache_updated d r).
Proof.
  assert (Hdec : ∀ c, Decision (match c with
                                | StatesUpdateCache a => covers a r
                                | _ => False
                                end)) by (intros []; apply _).
  destruct (@Exists_dec _ _ Hdec d) as [Hyes|Hno].
  - left. by apply cache_updated_Exists.
  - right. by intros ?%cache_updated_Exists.
Defined.

(** *** More on the state context *)

Lemma mapM_fingerprint_None (rs : list Request) (r : Request) :
  r ∈ rs → fingerprint r = None → mapM fingerprint rs = None.
Proof.
  intros Hin Hr. destruct (mapM fingerprint rs) as [fps|] eqn:Hm; [|done].
  destruct (mapM_fingerprint_loaded _ _ Hm r Hin) as (fp & Hfp & _).
  congruence.
Qed.

(** X1: when one of the requests given to [to_fetch] or to
    [refresh_and_keep] has no [fingerprint] in its [meta], the call raises
    [KeyError] and has done nothing: no fingerprint of the others is enrolled,
    the backend is not called. *)
Theorem to_fetch_missing_fingerprint
    (requests : ReqArg) (r : Request) (w : Worker S) :
  covers requests r → fingerprint r = None →
  StatesContext.to_fetch requests w = (Raise (KeyError "fingerprint"), w)
  ∧ StatesContext.refresh_and_keep requests w =
      (Raise (KeyError "fingerprint"), w).
Proof.
  intros Hc Hr.
  assert (Hto : StatesContext.to_fetch requests w =
                  (Raise (KeyError "fingerprint"), w)).
  { unfold StatesContext.to_fetch, StatesContext.meta_fingerprint.
    destruct requests as [r'|rs]; simpl in Hc; munfold.
    - subst r'. by rewrite Hr.
    - rewrite fingerprints_of_pure.
      by rewrite (mapM_fingerprint_None rs r Hc Hr). }
  split; [done|]. unfold StatesContext.refresh_and_keep. munfold.
  by rewrite Hto.
Qed.

(** X2: when every request has a fingerprint, [to_fetch] returns, touches
    nothing but [pending_fetch], and a fingerprint is pending afterwards
    exactly when it was pending before or belongs to one of the requests. *)
Theorem to_fetch_enrols_exactly (requests : ReqArg) (w : Worker S) :
  (∀ r, covers requests r → is_Some (fingerprint r)) →
  let run := StatesContext.to_fetch requests w in
  run.1 = Ok tt
  ∧ calls run.2 = calls w ∧ logs run.2 = logs w ∧ touched run.2 = touched w
  ∧ ∀ fp, fp ∈ pending run.2 ↔
          fp ∈ pending w ∨ ∃ r, covers requests r ∧ fingerprint r = Some fp.
Proof.
  intros Hall. unfold StatesContext.to_fetch, StatesContext.meta_fingerprint,
    StatesContext.update_fingerprints, pending, touched.
  destruct requests as [r|rs]; simpl in *; munfold.
  - destruct (Hall r eq_refl) as [fp0 Hfp0]. rewrite Hfp0. simpl.
    repeat split; try done.
    + set_unfold. intros [?|[->|[]]]; [by left|]. right. by exists r.
    + set_unfold. intros [?|(r' & <- & Hfp)]; [by left|]. right. left.
      congruence.
  - rewrite fingerprints_of_pure.
    destruct (fingerprinted_mapM rs Hall) as [fps Hm]. rewrite Hm. simpl.
    repeat split; try done.
    + intros [?|Hin]%elem_of_union; [by left|]. right.
      apply elem_of_list_to_set, list_elem_of_lookup in Hin as [i Hi].
      apply mapM_Some_1 in Hm.
      destruct (Forall2_lookup_r _ _ _ _ _ Hm Hi) as (r & Hr & Hfp).
      exists r. split; [|done]. apply list_elem_of_lookup. by exists i.
    + intros [?|(r & Hr & Hfp)]; [by apply elem_of_union_l|].
      destruct (mapM_fingerprint_loaded _ _ Hm r Hr) as (fp' & Hfp' & Hin).
      assert (fp = fp') as -> by congruence. by apply elem_of_union_r.
Qed.
Lemma mapM_fingerprint_app (a b : list Request) fa fb :
  mapM fingerprint a = Some fa → mapM fingerprint b = Some fb →
  mapM fingerprint (a ++ b) = Some (fa ++ fb).
Proof.
  revert fa. induction a as [|r a IH]; intros fa Ha Hb; simpl in *.
  - by injection Ha as <-.
  - destruct (fingerprint r) as [fp|]; simpl in *; [|done].
    destruct (mapM fingerprint a) as [fa'|]; simpl in *; [|done].
    injection Ha as <-. by rewrite (IH fa' eq_refl Hb).
Qed.

(** X3: when all the requests have fingerprints, enrolling a sequence in
    two pieces leaves the same state as enrolling it at once, and enrolling
    the same requests a second time changes nothing: [pending_fetch] is a
    set. *)
Theorem to_fetch_split_and_repeat (a b : list Request) (w : Worker S) :
  fingerprinted (a ++ b) →
  (StatesContext.to_fetch (Many a);; StatesContext.to_fetch (Many b)) w =
    StatesContext.to_fetch (Many (a ++ b)) w
  ∧ (StatesContext.to_fetch (Many a);; StatesContext.to_fetch (Many a)) w =
      StatesContext.to_fetch (Many a) w.
Proof.
  intros Hf.
  assert (Ha : fingerprinted a) by (intros r Hr; apply Hf; set_solver).
  assert (Hb : fingerprinted b) by (intros r Hr; apply Hf; set_solver).
  destruct (fingerprinted_mapM a Ha) as [fa Hfa].
  destruct (fingerprinted_mapM b Hb) as [fb Hfb].
  unfold StatesContext.to_fetch, StatesContext.update_fingerprints. munfold.
  rewrite !fingerprints_of_pure, Hfa. simpl.
  rewrite !fingerprints_of_pure, Hfa, Hfb,
    (mapM_fingerprint_app a b fa fb Hfa Hfb).
  unfold set_states_context. simpl. split; do 3 f_equal.
  - by rewrite list_to_set_app_L, (assoc_L (∪)).
  - rewrite <- (assoc_L (∪)). by rewrite (idemp_L (∪)).
Qed.

(** X4: [refresh_and_keep] on a sequence of requests that all have
    fingerprints fetches everything pending together with their fingerprints,
    hands the requests to [set_states] and keeps them; the [release] that
    follows writes back what was kept before and these requests, in that
    order, and leaves both scratch fields empty. *)
Theorem refresh_and_keep_then_release (rs : list Request) (w : Worker S) :
  fingerprinted rs →
  ∃ fps, mapM fingerprint rs = Some fps
  ∧ (let kept := StatesContext.refresh_and_keep (Many rs) w in
     kept.1 = Ok tt
     ∧ calls kept.2 = calls w ++ [StatesFetch (pending w ∪ list_to_set fps);
                                  StatesSetStates (Many rs)]
     ∧ pending kept.2 = ∅
     ∧ touched kept.2 = touched w ++ rs)
  ∧ (let run := (StatesContext.refresh_and_keep (Many rs);;
                 StatesContext.release) w in
     run.1 = Ok tt
     ∧ calls run.2 = calls w ++ [StatesFetch (pending w ∪ list_to_set fps);
                                 StatesSetStates (Many rs);
                                 StatesUpdateCache (Many (touched w ++ rs))]
     ∧ pending run.2 = ∅
     ∧ touched run.2 = []).
Proof.
  intros Hf. destruct (fingerprinted_mapM rs Hf) as [fps Hm].
  exists fps. split; [done|].
  unfold StatesContext.refresh_and_keep, StatesContext.release,
    StatesContext.fetch, StatesContext.to_fetch,
    StatesContext.update_fingerprints, pending, touched.
  munfold. rewrite !fingerprints_of_pure, Hm. simpl.
  rewrite <- !app_assoc. simpl. done.
Qed.

(** X5: [refresh_and_keep] only works on a sequence.  Given a single
    request it never returns and keeps nothing: without a fingerprint it
    raises [KeyError] at once; with one it fetches, calls [set_states] and
    then raises [TypeError]. *)
Theorem refresh_and_keep_single_request (r : Request) (w : Worker S) :
  let run := StatesContext.refresh_and_keep (One r) w in
  (∃ e, run.1 = Raise e)
  ∧ touched run.2 = touched w
  ∧ ∀ fp, fingerprint r = Some fp →
      run.1 = Raise (TypeError "'Request' object is not iterable")
      ∧ calls run.2 = calls w ++ [StatesFetch (pending w ∪ {[fp]});
                                  StatesSetStates (One r)]
      ∧ pending run.2 = ∅.
Proof.
  unfold StatesContext.refresh_and_keep, StatesContext.fetch,
    StatesContext.to_fetch, StatesContext.update_fingerprints,
    StatesContext.meta_fingerprint, pending, touched.
  munfold. destruct (fingerprint r) as [fp|] eqn:Hfp; simpl.
  - split; [by eexists|]. split; [done|]. intros fp' [= <-].
    rewrite <- !app_assoc. simpl. by rewrite (right_id_L ∅ (∪)).
  - split; [by eexists|]. split; [done|]. intros fp' [=].
Qed.

(** X6: a tick that polls nothing still goes through the whole pipeline:
    it returns, fetches what was pending, writes back what was kept, asks
    the strategy whether it has finished, and records a consumption of zero
    messages; the strategy is not entered. *)
Theorem work_empty_poll (now : string) (w : Worker S) :
  let run := work [] now w in
  run.1 = Ok tt
  ∧ calls run.2 =
      calls w ++ [ConsumerGetMessages (consumer_batch_size w);
                  StatesFetch (pending w);
                  StatesUpdateCache (Many (touched w));
                  StrategyFinished (finished (strategy w))]
        ++ (if finished (strategy w)
            then LoopingCallStop <$> running_tasks w else [])
  ∧ stats run.2 = set_consumed 0 now (stats w)
  ∧ strategy run.2 = strategy w
  ∧ pending run.2 = ∅ ∧ touched run.2 = [].
Proof.
  rewrite work_unfold. unfold collect_batch. munfold. simpl.
  unfold tick_body, finish_check, process_batch, StatesContext.fetch,
    StatesContext.release, UpdateScoreStream.flush, reactor_schedule,
    pending, touched.
  munfold. simpl.
  destruct (finished (strategy w)) eqn:Hfin; simpl.
  - rewrite stop_tasks_run. simpl. rewrite <- !app_assoc. simpl.
    repeat split; try done.
  - rewrite <- !app_assoc. simpl. repeat split; done.
Qed.

(** *** The trace and the counters of a batch *)

Lemma entered_app d1 d2 : entered (d1 ++ d2) = entered d1 ++ entered d2.
Proof. apply omap_app. Qed.

Lemma returned_app d1 d2 : returned (d1 ++ d2) = returned d1 ++ returned d2.
Proof. apply omap_app. Qed.

Lemma op_calls_no_handler os :
  Forall op_call os → entered os = [] ∧ returned os = [].
Proof.
  induction 1 as [|c os Hc _ [IH1 IH2]]; [done|].
  unfold entered, returned in *. by destruct c; simpl in *.
Qed.

Lemma outside_no_handler d :
  Forall outside_handler d → entered d = [] ∧ returned d = [].
Proof.
  induction 1 as [|c os Hc _ [IH1 IH2]]; [done|].
  unfold entered, returned in *. by destruct c; simpl in *.
Qed.

Lemma entered_cons_outside c d :
  outside_handler c → entered (c :: d) = entered d.
Proof. by destruct c. Qed.

Lemma returned_cons_outside c d :
  outside_handler c → returned (c :: d) = returned d.
Proof. by destruct c. Qed.

(** The handlers in the calls of one message. *)
Lemma msg_calls_handlers job msg out d :
  msg_calls job msg out d →
  entered d = from_option (λ x, [x.1.2]) [] (handler_of job msg)
  ∧ returned d = match out with
                 | None => entered d
                 | Some _ => []
                 end.
Proof.
  unfold msg_calls. destruct (handler_of job msg) as [[[a1 h] a2]|]; simpl.
  - intros (os & Hos & ->).
    destruct (op_calls_no_handler os Hos) as [He Hr].
    rewrite entered_app, returned_app. simpl.
    rewrite entered_app, returned_app, He, Hr. simpl.
    by destruct out.
  - by intros [-> ->].
Qed.

Lemma process_batch_cons (msg : Event) (rest : list Event) (w : Worker S) :
  process_batch (msg :: rest) w = process_batch rest (process_msg msg w).2.
Proof.
  unfold process_batch. simpl. munfold.
  destruct (total_process_msg msg w) as [[] Hok].
  by destruct (for_each [msg] process_msg w) eqn:E,
    (process_msg msg w) as [[[]|?] ?]; simpl in *.
Qed.

Lemma dispatch_stats (msg : Event) (w : Worker S) :
  stats (dispatch msg w).2 =
    match handler_of (job_id w) msg, raised (dispatch msg w).1 with
    | Some (_, h, _), None => incr_for h (stats w)
    | _, _ => stats w
    end.
Proof.
  assert (Hs1 : ∀ seeds, preserves (same stats) (on_add_seeds (S:=S) seeds))
    by (intros; frame ltac:(reflexivity)).
  assert (Hs2 : ∀ r, preserves (same stats) (on_page_crawled (S:=S) r))
    by (intros; frame ltac:(reflexivity)).
  assert (Hs3 : ∀ r l, preserves (same stats) (on_links_extracted (S:=S) r l))
    by (intros; frame ltac:(reflexivity)).
  assert (Hs4 : ∀ r e, preserves (same stats) (on_request_error (S:=S) r e))
    by (intros; frame ltac:(reflexivity)).
  unfold preserves, same in *.
  destruct msg as [seeds|response|request links|request error|?|?];
    unfold dispatch; munfold; simpl; try done.
  - specialize (Hs1 (set_jid (job_id w) <$> seeds) w).
    destruct (on_add_seeds _ w) as [[[]|?] ?]; simpl in *; congruence.
  - destruct (stale response (job_id w)); [done|].
    specialize (Hs2 response w).
    destruct (on_page_crawled _ w) as [[[]|?] ?]; simpl in *; congruence.
  - destruct (stale request (job_id w)); [done|].
    specialize (Hs3 request links w).
    destruct (on_links_extracted _ _ w) as [[[]|?] ?]; simpl in *; congruence.
  - destruct (stale request (job_id w)); [done|].
    specialize (Hs4 request error w).
    destruct (on_request_error _ _ w) as [[[]|?] ?]; simpl in *; congruence.
Qed.

(** One message of the batch: its calls, and the counter of its handler
    when the handler returned. *)
Lemma process_msg_effect (msg : Event) (w : Worker S) :
  ∃ d out, calls (process_msg msg w).2 = calls w ++ d
    ∧ msg_calls (job_id w) msg out d
    ∧ stats (process_msg msg w).2 =
        foldl (λ st h, incr_for h st) (stats w) (returned d)
    ∧ job_id (process_msg msg w).2 = job_id w.
Proof.
  destruct (dispatch_calls msg w) as (d & Hd & Hm).
  pose proof (dispatch_stats msg w) as Hs.
  pose proof (job_id_process_batch [msg] w) as Hj.
  rewrite process_batch_cons in Hj. simpl in Hj. unfold same in Hj.
  exists d, (raised (dispatch msg w).1). split; [|split; [done|split; [|done]]].
  - unfold process_msg. munfold. by destruct (dispatch msg w) as [[[]|?] ?].
  - destruct (msg_calls_handlers _ _ _ _ Hm) as [He Hr].
    rewrite Hr, He.
    assert (stats (process_msg msg w).2 = stats (dispatch msg w).2) as ->.
    { unfold process_msg. munfold. by destruct (dispatch msg w) as [[[]|?] ?]. }
    rewrite Hs.
    destruct (handler_of (job_id w) msg) as [[[a1 h] a2]|],
      (raised (dispatch msg w).1); done.
Qed.

(** The trace of a processed batch, message by message. *)
Lemma process_batch_effect (batch : list Event) (w : Worker S) :
  ∃ ds, calls (process_batch batch w).2 = calls w ++ concat ds
    ∧ Forall2 (λ msg d, ∃ out, msg_calls (job_id w) msg out d) batch ds
    ∧ stats (process_batch batch w).2 =
        foldl (λ st h, incr_for h st) (stats w) (returned (concat ds)).
Proof.
  revert w. induction batch as [|msg rest IH]; intros w.
  - exists []. simpl. by rewrite app_nil_r.
  - rewrite process_batch_cons.
    destruct (process_msg_effect msg w) as (d & out & Hd & Hm & Hs & Hj).
    destruct (IH (process_msg msg w).2) as (ds & Hds & Hall & Hst).
    exists (d :: ds). simpl. rewrite Hds, Hd, <- app_assoc. split; [done|].
    split.
    + constructor; [by exists out|]. by rewrite Hj in Hall.
    + by rewrite Hst, Hs, returned_app, foldl_app.
Qed.

Lemma deltas_handlers job (batch : list Event) (ds : list (list Call)) :
  Forall2 (λ msg d, ∃ out, msg_calls job msg out d) batch ds →
  entered (concat ds) = dispatched job batch
  ∧ returned (concat ds) `sublist_of` entered (concat ds).
Proof.
  induction 1 as [|msg d batch ds [out Hm] _ [IH1 IH2]]; [done|].
  destruct (msg_calls_handlers _ _ _ _ Hm) as [He Hr]. simpl.
  rewrite entered_app, returned_app, IH1. split.
  - rewrite He. unfold dispatched. simpl.
    by destruct (handler_of job msg) as [[[a1 h] a2]|].
  - rewrite <- IH1. apply sublist_app; [|done]. rewrite Hr.
    destruct out; [apply sublist_nil_l | done].
Qed.

(** The calls of the statements of [work] after [collect_batch]. *)
Lemma tick_body_trace (batch : list Event) (w : Worker S) :
  let w2 := (process_batch batch (StatesContext.fetch w).2).2 in
  ∃ dfin,
    calls (tick_body batch w).2 =
      calls w2 ++ StatesUpdateCache (Many (touched w2)) :: dfin
    ∧ Forall outside_handler dfin
    ∧ stats (tick_body batch w).2 = stats w2.
Proof.
  intros w2. rewrite tick_body_prefix.
  assert (Hp : (tick_prefix batch w).2 =
                 (StatesContext.release w2).2).
  { unfold tick_prefix, UpdateScoreStream.flush. munfold. subst w2.
    destruct (total_process_batch batch (StatesContext.fetch w).2) as [[] Hok].
    unfold StatesContext.fetch in *. munfold. simpl in *.
    by destruct (process_batch batch _) as [[[]|?] ?]. }
  rewrite Hp.
  destruct (finish_check_emits (Forall outside_handler)
              (λ c Hc, Forall_cons_2 _ _ _ Hc (Forall_nil_2 _))
              (StatesContext.release w2).2) as (dfin & Hd & Hfin).
  exists dfin. split; [|split; [done|]].
  - rewrite Hd. unfold StatesContext.release. munfold. simpl.
    by rewrite <- app_assoc.
  - assert (Hs : preserves (same stats) (finish_check (S:=S)))
      by (unfold finish_check; frame ltac:(reflexivity)).
    by rewrite (Hs _).
Qed.

(** The calls and the counters of a whole tick. *)
Lemma work_effect (msgs : list string) (now : string) (w : Worker S) :
  match collect_batch msgs w with
  | (Ok bc, w1) =>
      ∃ ds dfin (w2 : Worker S),
        calls (work msgs now w).2 =
          calls w ++ ConsumerGetMessages (consumer_batch_size w)
            :: StatesFetch (pending w1)
            :: concat ds ++ StatesUpdateCache (Many (touched w2)) :: dfin
        ∧ Forall2 (λ msg d, ∃ out, msg_calls (job_id w) msg out d) bc.1 ds
        ∧ Forall outside_handler dfin
        ∧ stats (work msgs now w).2 =
            set_consumed bc.2 now
              (foldl (λ st h, incr_for h st) (stats w) (returned (concat ds)))
  | (Raise e, w1) =>
      work msgs now w = (Raise e, w1)
      ∧ calls w1 = calls w ++ [ConsumerGetMessages (consumer_batch_size w)]
      ∧ stats w1 = stats w
  end.
Proof.
  rewrite work_unfold.
  destruct (collect_batch_calls msgs w) as [Hc Hj].
  pose proof (collect_batch_frame stats msgs
                (λ _ _, eq_refl) (λ _ _, eq_refl) (λ _ _, eq_refl) w) as Hs.
  unfold same in Hs.
  destruct (collect_batch msgs w) as [[bc|e] w1]; simpl in *; [|done].
  destruct (tick_body_trace bc.1 w1) as (dfin & Hd & Hfin & Hst).
  destruct (process_batch_effect bc.1 (StatesContext.fetch w1).2)
    as (ds & Hds & Hall & Hst').
  exists ds, dfin, (process_batch bc.1 (StatesContext.fetch w1).2).2.
  rewrite Hd, Hds, Hst, Hst'. simpl. rewrite Hc, Hs.
  list_norm. repeat split; try done.
  change (job_id (StatesContext.fetch w1).2) with (job_id w1) in Hall.
  by rewrite Hj in Hall.
Qed.

Lemma work_handlers (msgs : list string) (now : string) (w : Worker S) d :
  calls (work msgs now w).2 = calls w ++ d →
  match collect_batch msgs w with
  | (Ok bc, w1) =>
      ∃ ds, Forall2 (λ msg d, ∃ out, msg_calls (job_id w) msg out d) bc.1 ds
        ∧ entered d = entered (concat ds)
        ∧ returned d = returned (concat ds)
        ∧ stats (work msgs now w).2 =
            set_consumed bc.2 now
              (foldl (λ st h, incr_for h st) (stats w) (returned d))
  | (Raise e, w1) => d = [ConsumerGetMessages (consumer_batch_size w)]
                     ∧ stats (work msgs now w).2 = stats w
  end.
Proof.
  intros Hd. pose proof (work_effect msgs now w) as He.
  destruct (collect_batch msgs w) as [[bc|e] w1].
  - destruct He as (ds & dfin & w2 & Hc & Hall & Hfin & Hst).
    rewrite Hc in Hd. apply app_inv_head in Hd. subst d.
    destruct (outside_no_handler dfin Hfin) as [He Hr].
    exists ds. split; [done|].
    rewrite Hst, !entered_cons_outside, !returned_cons_outside by done.
    rewrite entered_app, returned_app, entered_cons_outside,
      returned_cons_outside by done.
    by rewrite He, Hr, !app_nil_r.
  - destruct He as (Hw & Hc & Hst). rewrite Hw in *. simpl in *.
    rewrite Hc in Hd. apply app_inv_head in Hd. by subst d.
Qed.

Lemma collect_batch_caught (msgs : list string) (w : Worker S) :
  Forall caught msgs →
  ∃ w1, collect_batch msgs w =
          (Ok (decoded msgs, Z.of_nat (length msgs)), w1).
Proof.
  intros Hall.
  destruct (collect_loop_caught msgs Hall [] 0
              (add_call (ConsumerGetMessages (consumer_batch_size w)) w))
    as (w1 & Hrun & _).
  exists w1. unfold collect_batch. munfold. simpl. by rewrite Hrun.
Qed.

(** X7: in a tick whose messages all decode or fail with a caught error,
    the strategy's handlers are entered in the order of the messages, once
    for each message that is neither dropped nor ignored; the handlers that
    return are a subsequence of them. *)
Theorem work_dispatch_order
    (msgs : list string) (now : string) (w : Worker S) (d : list Call) :
  Forall caught msgs →
  calls (work msgs now w).2 = calls w ++ d →
  entered d = dispatched (job_id w) (decoded msgs)
  ∧ returned d `sublist_of` entered d.
Proof.
  intros Hcaught Hd. pose proof (work_handlers msgs now w d Hd) as Hw.
  destruct (collect_batch_caught msgs w Hcaught) as (w1 & Hcb).
  rewrite Hcb in Hw. destruct Hw as (ds & Hall & He & Hr & _).
  rewrite He, Hr. by apply deltas_handlers.
Qed.

Lemma counter_of_foldl (h : HandlerCall) (hs : list HandlerCall) (st : Stats) :
  counter_of h (foldl (λ st h, incr_for h st) st hs) =
    counter_of h st + Z.of_nat (length (filter (λ h', same_kind h h') hs)).
Proof.
  revert st. induction hs as [|h' hs IH]; intros st; simpl; [lia|].
  rewrite IH, filter_cons.
  destruct h, h'; simpl; lia.
Qed.

(** X8: over a tick, the counter of each kind of handler grows by the
    number of handlers of that kind that returned; a handler that raised, a
    dropped message and a tick that failed while collecting count nothing. *)
Theorem work_counts_returned_handlers
    (msgs : list string) (now : string) (w : Worker S) (d : list Call)
    (h : HandlerCall) :
  calls (work msgs now w).2 = calls w ++ d →
  counter_of h (stats (work msgs now w).2) =
    counter_of h (stats w)
    + Z.of_nat (length (filter (λ h', same_kind h h') (returned d))).
Proof.
  intros Hd. pose proof (work_handlers msgs now w d Hd) as Hw.
  destruct (collect_batch msgs w) as [[bc|e] w1].
  - destruct Hw as (ds & _ & _ & _ & ->).
    rewrite <- counter_of_foldl. by destruct h.
  - destruct Hw as [-> ->]. simpl. lia.
Qed.

(** *** Requests kept by a handler *)

Global Instance touched_grows_preorder : PreOrder (touched_grows (S:=S)).
Proof.
  unfold touched_grows. split; [by intros w|].
  intros x y z Hxy Hyz. by etrans.
Qed.

Ltac touched_leaf :=
  unfold touched_grows, touched; simpl;
  first [ reflexivity | by apply prefix_app_r ].

Lemma run_op_touched_grows (op : StrategyOp) :
  preserves (touched_grows (S:=S)) (run_op op).
Proof. destruct op; frame touched_leaf. Qed.

Lemma for_each_run_op_touched_grows (os : list StrategyOp) :
  preserves (touched_grows (S:=S)) (for_each os run_op).
Proof.
  apply preserves_for_each; [apply _|]. intros op _.
  apply run_op_touched_grows.
Qed.

Lemma process_batch_touched_grows (batch : list Event) :
  preserves (touched_grows (S:=S)) (process_batch batch).
Proof. pose proof run_op_touched_grows. frame touched_leaf. Qed.

Lemma refresh_and_keep_kept (rs : list Request) (w : Worker S) :
  (StatesContext.refresh_and_keep (Many rs) w).1 = Ok tt →
  touched (StatesContext.refresh_and_keep (Many rs) w).2 = touched w ++ rs.
Proof.
  unfold StatesContext.refresh_and_keep, StatesContext.to_fetch,
    StatesContext.update_fingerprints, StatesContext.fetch, touched.
  munfold. rewrite fingerprints_of_pure.
  by destruct (mapM fingerprint rs).
Qed.

(** When the operations of a handler all return, everything handed to
    [refresh_and_keep] is among the kept requests. *)
Lemma for_each_run_op_kept (os : list StrategyOp) (w : Worker S) rs r :
  (for_each os run_op w).1 = Ok tt →
  OpRefreshAndKeep (Many rs) ∈ os → r ∈ rs →
  r ∈ touched (for_each os run_op w).2.
Proof.
  revert w. induction os as [|op os IH]; intros w Hok Hin Hr.
  - by apply elem_of_nil in Hin.
  - pose proof (for_each_run_op_touched_grows os) as Hgrow.
    simpl in *. munfold.
    destruct (run_op op w) as [[[]|e] w1] eqn:Hop; simpl in *; [|done].
    apply elem_of_cons in Hin as [<-|Hin]; [|by apply IH].
    simpl in Hop.
    assert (Hk : touched w1 = touched w ++ rs).
    { pose proof (refresh_and_keep_kept rs w) as Hk.
      rewrite Hop in Hk. by apply Hk. }
    destruct (Hgrow w1) as [k Hk']. rewrite Hk', Hk.
    apply elem_of_app. left. apply elem_of_app. by right.
Qed.

Lemma strategy_call_kept (h : HandlerCall) (w : Worker S) rs r :
  (strategy_call h w).1 = Ok tt →
  OpRefreshAndKeep (Many rs) ∈ ops (handler_run (strategy w) h) → r ∈ rs →
  r ∈ touched (strategy_call h w).2.
Proof.
  unfold strategy_call, handler_body. munfold. simpl.
  set (w0 := set_strategy _ _).
  intros Hok Hin Hr.
  pose proof (for_each_run_op_kept (ops (handler_run (strategy w) h))
                w0 rs r) as Hk.
  destruct (for_each (ops _) run_op w0) as [[[]|e] w1]; simpl in *; [|done].
  destruct (raises _); simpl in *; [done|]. munfold. simpl. by apply Hk.
Qed.

Lemma for_each_log_state {A} (xs : list A) (f : A → LogRecord) (w : Worker S) :
  ∃ w', for_each xs (λ x, log (f x)) w = (Ok tt, w')
        ∧ strategy w' = strategy w ∧ states_context w' = states_context w.
Proof.
  revert w. induction xs as [|x xs IH]; intros w; simpl; [by exists w|].
  munfold. simpl. destruct (IH (add_log (f x) w)) as (w' & -> & ? & ?).
  by exists w'.
Qed.

(** A dispatched message whose handler returns: what the handler kept is
    kept after the message. *)
Lemma dispatch_kept (msg : Event) (w : Worker S) a1 h a2 rs r :
  handler_of (job_id w) msg = Some (a1, h, a2) →
  (dispatch msg w).1 = Ok tt →
  OpRefreshAndKeep (Many rs) ∈ ops (handler_run (strategy w) h) → r ∈ rs →
  r ∈ touched (dispatch msg w).2.
Proof.
  intros Hh Hok Hin Hr.
  pose proof (λ w', strategy_call_kept h w' rs r) as Hk.
  destruct msg as [seeds|response|request links|request error|?|?];
    simpl in Hh; try done; revert Hok;
    unfold dispatch, on_add_seeds, on_page_crawled, on_links_extracted,
      on_request_error; munfold; simpl.
  - injection Hh as <- <- <-.
    destruct (for_each_log_state (set_jid (job_id w) <$> seeds)
                (λ seed, LogDebug "URL: %s" [AStr (url seed)])
                (add_log (LogDebug "Adding %i seeds"
                   [AInt (Z.of_nat (length (set_jid (job_id w) <$> seeds)))]) w))
      as (w' & Hrun & Hs & Hc).
    unfold log in Hrun. munfold. rewrite Hrun. simpl.
    specialize (Hk (add_call (StatesSetStates
                      (Many (set_jid (job_id w) <$> seeds))) w')).
    destruct (strategy_call _ _) as [[[]|?] ?]; simpl in *; [|done].
    intros _. apply Hk; [done| |done]. by rewrite Hs.
  - destruct (stale response (job_id w)); [done|]. injection Hh as <- <- <-.
    match goal with |- context [strategy_call _ ?w0] => specialize (Hk w0) end.
    destruct (strategy_call _ _) as [[[]|?] ?]; simpl in *; [|done].
    intros _. by apply Hk.
  - destruct (stale request (job_id w)); [done|]. injection Hh as <- <- <-.
    destruct (for_each_log_state links
                (λ link, LogDebug "URL: %s" [AStr (url link)])
                (add_log (LogDebug "Links extracted %s (%d)"
                   [AStr (url request); AInt (Z.of_nat (length links))]) w))
      as (w' & Hrun & Hs & Hc).
    unfold log in Hrun. munfold. rewrite Hrun. simpl.
    specialize (Hk (add_call (StatesSetStates (Many links)) w')).
    destruct (strategy_call _ _) as [[[]|?] ?]; simpl in *; [|done].
    intros _. apply Hk; [done| |done]. by rewrite Hs.
  - destruct (stale request (job_id w)); [done|]. injection Hh as <- <- <-.
    match goal with |- context [strategy_call _ ?w0] => specialize (Hk w0) end.
    destruct (strategy_call _ _) as [[[]|?] ?]; simpl in *; [|done].
    intros _. by apply Hk.
Qed.

Lemma process_batch_app (pre post : list Event) (w : Worker S) :
  process_batch (pre ++ post) w = process_batch post (process_batch pre w).2.
Proof. apply for_each_app. apply total_process_msg. Qed.

(** X9: what a handler hands to [refresh_and_keep] as a sequence, when
    the handler returns, is written back by the [update_cache] that
    [release] makes at the end of the tick, after the last handler. *)
Theorem kept_requests_written_back
    (pre post : list Event) (msg : Event) (w : Worker S)
    (a1 a2 : ReqArg) (h : HandlerCall) (rs : list Request) (r : Request) :
  let w1 := (process_batch pre (StatesContext.fetch w).2).2 in
  handler_of (job_id w) msg = Some (a1, h, a2) →
  (dispatch msg w1).1 = Ok tt →
  OpRefreshAndKeep (Many rs) ∈ ops (handler_run (strategy w1) h) →
  r ∈ rs →
  ∃ d1 d2 kept,
    calls (tick_body (pre ++ msg :: post) w).2 =
      calls w ++ d1 ++ StatesUpdateCache (Many kept) :: d2
    ∧ r ∈ kept
    ∧ Forall outside_handler d2.
Proof.
  intros w1 Hh Hok Hin Hr.
  destruct (tick_body_trace (pre ++ msg :: post) w) as (dfin & Hd & Hfin & _).
  set (w2 := (process_batch (pre ++ msg :: post) (StatesContext.fetch w).2).2)
    in *.
  destruct (process_batch_emits (λ _, True) (pre ++ msg :: post)
              (StatesContext.fetch w).2 ltac:(done)) as (d & Hc & _).
  exists (StatesFetch (pending w) :: d), dfin, (touched w2).
  split; [|split; [|done]].
  - rewrite Hd. fold w2 in Hc. rewrite Hc. simpl. by list_norm.
  - assert (Hj : job_id w1 = job_id w).
    { subst w1. by rewrite (job_id_process_batch pre _). }
    rewrite <- Hj in Hh.
    pose proof (dispatch_kept msg w1 a1 h a2 rs r Hh Hok Hin Hr) as Hk.
    assert (Hm : touched (process_msg msg w1).2 = touched (dispatch msg w1).2).
    { unfold process_msg. munfold.
      by destruct (dispatch msg w1) as [[[]|?] ?]. }
    subst w2. rewrite process_batch_app, process_batch_cons. fold w1.
    destruct (process_batch_touched_grows post (process_msg msg w1).2)
      as [k Hk'].
    rewrite Hk', Hm. apply elem_of_app. by left.
Qed.

(** *** A tick that fails while collecting *)

Lemma collect_loop_uncaught (pre post : list string) (m : string) (e : exn) :
  Forall caught pre → decode m = inl e → is_KeyError_or_TypeError e = false →
  ∀ batch consumed (w : Worker S),
    collect_loop (pre ++ m :: post) batch consumed w =
      (Raise e, (collect_loop pre batch consumed w).2).
Proof.
  intros Hpre Hm He. induction Hpre as [|m' pre Hm' _ IH];
    intros batch consumed w; simpl.
  - by rewrite Hm, He.
  - unfold caught in Hm'. destruct (decode m') as [e'|msg]; munfold.
    + rewrite Hm'. simpl. apply IH.
    + destruct (classify msg w) as [[[]|?] ?]; simpl; apply IH.
Qed.

Lemma collect_loop_returns (msgs : list string) :
  ∀ batch consumed (w : Worker S) bc w1,
    collect_loop msgs batch consumed w = (Ok bc, w1) →
    Forall caught msgs ∧ bc.2 = consumed + Z.of_nat (length msgs).
Proof.
  induction msgs as [|m msgs IH]; intros batch consumed w bc w1; simpl.
  - munfold. intros [= <- <-]. split; [constructor | simpl; lia].
  - destruct (decode m) as [e|msg] eqn:Hm; munfold.
    + destruct (is_KeyError_or_TypeError e) eqn:He; simpl; [|done].
      intros [Hc ->]%IH. split; [|lia].
      constructor; [|done]. unfold caught. by rewrite Hm.
    + destruct (classify msg w) as [[[]|?] ?]; simpl;
        intros [Hc ->]%IH; (split; [|lia]);
        (constructor; [|done]); unfold caught; by rewrite Hm.
Qed.

(** Collecting enrols fingerprints and keeps nothing. *)
Lemma collect_batch_touched (msgs : list string) :
  preserves (same (touched (S:=S))) (collect_batch msgs).
Proof.
  assert (Hloop : ∀ batch consumed,
            preserves (same (touched (S:=S)))
              (collect_loop msgs batch consumed)).
  { induction msgs as [|m msgs IH]; intros batch consumed; simpl.
    - apply preserves_ret; apply _.
    - destruct (decode m) as [e|msg]; [destruct (is_KeyError_or_TypeError e)|].
      + frame ltac:(reflexivity).
      + apply preserves_raise; apply _.
      + frame_apply @preserves_bind; [|intros ?; apply IH].
        frame ltac:(reflexivity). }
  unfold collect_batch. frame ltac:(reflexivity).
Qed.

(** X10: when a message fails to decode with an exception other than
    [KeyError] and [TypeError], [work] raises that exception and leaves the
    worker as collecting the messages before it left it: the consumer was
    polled and nothing else called, the messages already collected are not
    dispatched, the statistics and the strategy are untouched, and the
    fingerprints enrolled so far stay pending. *)
Theorem work_uncaught_decode_error
    (pre post : list string) (m : string) (e : exn) (now : string)
    (w : Worker S) :
  Forall caught pre → decode m = inl e → is_KeyError_or_TypeError e = false →
  let w1 := (collect_batch pre w).2 in
  work (pre ++ m :: post) now w = (Raise e, w1)
  ∧ calls w1 = calls w ++ [ConsumerGetMessages (consumer_batch_size w)]
  ∧ stats w1 = stats w ∧ strategy w1 = strategy w
  ∧ touched w1 = touched w
  ∧ pending w ⊆ pending w1
  ∧ ∀ msg, msg ∈ decoded pre → enrolled (pending w1) msg.
Proof.
  intros Hpre Hm He w1.
  assert (Hc : collect_batch (pre ++ m :: post) w = (Raise e, w1)).
  { subst w1. unfold collect_batch. munfold. simpl.
    by rewrite (collect_loop_uncaught pre post m e Hpre Hm He). }
  split; [by rewrite work_unfold, Hc|].
  split; [apply collect_batch_calls|].
  split; [by apply (collect_batch_frame stats)|].
  split; [by apply (collect_batch_frame strategy)|].
  split; [apply collect_batch_touched|].
  destruct (collect_batch_caught pre w Hpre) as (w1' & Hcb).
  assert (w1' = w1) as -> by (subst w1; by rewrite Hcb).
  unfold collect_batch in Hcb. munfold. simpl in Hcb.
  destruct (collect_loop_enrols pre [] 0 _ _ _ Hcb) as [Hsub Hen].
  split; [exact Hsub|]. intros msg Hin.
  destruct (Hen msg Hin) as [Hnil|Hok]; [|done]. by apply elem_of_nil in Hnil.
Qed.

(** X11: [work] returns exactly when every polled message either decodes
    or fails to decode with [KeyError] or [TypeError]. *)
Theorem work_returns_iff_caught
    (msgs : list string) (now : string) (w : Worker S) :
  (work msgs now w).1 = Ok tt ↔ Forall caught msgs.
Proof.
  split.
  - rewrite work_unfold. unfold collect_batch. munfold. simpl.
    destruct (collect_loop msgs [] 0 _) as [[bc|e] w1] eqn:Hc; [|done].
    intros _. by destruct (collect_loop_returns _ _ _ _ _ _ Hc).
  - intros Hall. destruct (collect_batch_caught msgs w Hall) as (w1 & Hcb).
    by rewrite work_unfold, Hcb.
Qed.


(** *** What no turn of the reactor changes *)

Section Invariant.
Context (R : relation (Worker S)) `{!PreOrder R}.
Hypothesis R_log : ∀ l w, R w (add_log l w).
Hypothesis R_call : ∀ c w, R w (add_call c w).
Hypothesis R_task : ∀ t lc w, R w (set_task t lc w).
Hypothesis R_reactor : ∀ f w, R w (set_reactor f w).
Hypothesis R_strategy : ∀ s w, R w (set_strategy s w).
Hypothesis R_work : ∀ msgs now, preserves R (work msgs now).

Ltac invariant_leaf :=
  first [ apply R_log | apply R_call | apply R_task | apply R_reactor
        | apply R_strategy ].

Lemma Deferred_callback_invariant (d : list Callback) :
  preserves R (Deferred_callback d).
Proof.
  induction d as [|cb d IH]; simpl; [by apply preserves_ret|].
  frame invariant_leaf.
Qed.

Lemma step_invariant (w w' : Worker S) : step w w' → R w w'.
Proof.
  pose proof Deferred_callback_invariant as Hd.
  destruct 1 as [w msgs now _|w _|w _|w signum|w pre dc post _].
  - assert (Hp : preserves R (fire WorkTask (work msgs now))).
    { unfold fire. frame invariant_leaf. }
    apply Hp.
  - assert (Hp : preserves R (fire FlushStatesTask (flush_states (S:=S))))
      by frame invariant_leaf.
    apply Hp.
  - assert (Hp : preserves R (fire LoggingTask (log_status (S:=S))))
      by frame invariant_leaf.
    apply Hp.
  - assert (Hp : preserves R (_handle_shutdown (S:=S) signum))
      by frame invariant_leaf.
    apply Hp.
  - assert (Hp : preserves R (run_delayed (S:=S) dc))
      by (destruct dc; simpl; [frame invariant_leaf | apply Hd
                              | frame invariant_leaf]).
    trans (take_delayed pre post w); [apply R_reactor | apply Hp].
Qed.

Lemma steps_invariant (w w' : Worker S) : rtc step w w' → R w w'.
Proof.
  induction 1 as [|x y z Hxy _ IH]; [reflexivity|].
  etrans; [by apply step_invariant | done].
Qed.
End Invariant.

(** X13: no turn of the reactor changes the job id or the batch size of
    the worker: it keeps serving the job it was built with. *)
Theorem steps_keep_job_id (w w' : Worker S) :
  rtc step w w' →
  job_id w' = job_id w ∧ consumer_batch_size w' = consumer_batch_size w.
Proof.
  intros Hsteps.
  assert (same (λ w, (job_id w, consumer_batch_size w)) w w') as [= -> ->];
    [|done].
  apply steps_invariant; try done; try apply _.
  intros msgs now.
  pose proof (collect_loop_frame (λ w : Worker S,
                (job_id w, consumer_batch_size w))) as Hc.
  unfold work. frame ltac:(reflexivity).
Qed.

Global Instance counters_grow_preorder : PreOrder (counters_grow (S:=S)).
Proof.
  unfold counters_grow, stats_le. split; [intros w; lia|].
  intros x y z ? ?. lia.
Qed.

Lemma stats_le_foldl (hs : list HandlerCall) (st : Stats) :
  stats_le st (foldl (λ st h, incr_for h st) st hs).
Proof.
  revert st. induction hs as [|h hs IH]; intros st; simpl.
  - unfold stats_le. lia.
  - specialize (IH (incr_for h st)). unfold stats_le in *.
    destruct h; simpl in *; lia.
Qed.

(** X14: the counters of [stats] never decrease, whatever the reactor
    does. *)
Theorem steps_counters_grow (w w' : Worker S) :
  rtc step w w' → stats_le (stats w) (stats w').
Proof.
  intros Hsteps. change (counters_grow w w').
  apply steps_invariant; try done; try apply _;
    try (intros; unfold counters_grow, stats_le; simpl; lia).
  intros msgs now w0. unfold counters_grow.
  pose proof (work_effect msgs now w0) as He.
  destruct (collect_batch msgs w0) as [[bc|e] w1] eqn:Hc.
  - destruct He as (ds & dfin & w2 & _ & _ & _ & ->).
    unfold collect_batch in Hc. munfold. simpl in Hc.
    destruct (collect_loop_returns _ _ _ _ _ _ Hc) as [_ Hn].
    pose proof (stats_le_foldl (returned (concat ds)) (stats w0)) as Hle.
    unfold stats_le in *. simpl. lia.
  - destruct He as (-> & _ & Hs). simpl. rewrite Hs. unfold stats_le. lia.
Qed.

Global Instance keeps_nothing_preorder : PreOrder (keeps_nothing (S:=S)).
Proof.
  unfold keeps_nothing. split; [by intros w|].
  intros x y z Hxy Hyz Hx. auto.
Qed.

(** X15: between two turns of the reactor nothing is kept for write-back:
    once [touched] is empty, as it is in a new worker, it is empty after
    every turn. *)
Theorem steps_keep_nothing (w w' : Worker S) :
  rtc step w w' → touched w = [] → touched w' = [].
Proof.
  intros Hsteps. change (keeps_nothing w w').
  apply steps_invariant; try done; try apply _;
    try (intros; unfold keeps_nothing, touched; by simpl).
  intros msgs now w0. unfold keeps_nothing. intros Hw0. rewrite work_unfold.
  pose proof (collect_batch_touched msgs w0) as Hf. unfold same in Hf.
  destruct (collect_batch msgs w0) as [[bc|e] w1]; simpl in *.
  - destruct (tick_body_scratch bc.1 w1) as (_ & _ & Ht & _). exact Ht.
  - by rewrite Hf.
Qed.
End Properties.

(** ** Start-up *)

Section StartupProperties.
Context {C : Type} (load_object : PyVal → Result C)
  (path_exists : PyVal → bool).

Lemma settings_get_set key key' value settings :
  settings_get (settings_set key value settings) key' =
    if decide (key = key') then value else settings_get settings key'.
Proof.
  unfold settings_get, settings_set. destruct (decide (key = key')) as [->|].
  - by rewrite lookup_insert_eq.
  - by rewrite lookup_insert_ne.
Qed.

(** How [setup_environment] returns. *)
Lemma setup_environment_returns args settings env :
  setup_environment load_object path_exists args settings = Ok env →
  truthy (strategy_classpath args settings) = true
  ∧ load_object (strategy_classpath args settings) = Ok (env_strategy_class env)
  ∧ (∃ too_large,
       py_ge (partition_id args settings)
         (settings_get settings "SPIDER_LOG_PARTITIONS") = Ok too_large
       ∧ (if too_large then Ok true
          else py_lt (partition_id args settings) (PInt 0)) = Ok false)
  ∧ env_settings env =
      settings_set "SCORING_PARTITION_ID" (partition_id args settings) settings.
Proof.
  unfold setup_environment.
  destruct (truthy (strategy_classpath args settings)); simpl; [|done].
  unfold mbind, Result_bind.
  destruct (load_object _) as [c|?]; [|done].
  destruct (py_ge _ _) as [too_large|?]; [|done].
  destruct (if too_large then _ else _) as [[]|?] eqn:Hout; [|..|done].
  - by destruct (format_d _).
  - intros [= <-]. simpl. repeat split; try done. by exists too_large.
Qed.

(** X16: when [setup_environment] returns and [SPIDER_LOG_PARTITIONS] is
    an integer [n], the partition id it has stored in the settings is a
    number from 0 to [n - 1]; it is the one given on the command line if
    there is one, else the one of the settings module; no other setting is
    changed. *)
Theorem setup_environment_partition_in_range
    (args : Args) (settings : Settings) (env : Environment C) (n : Z) :
  setup_environment load_object path_exists args settings = Ok env →
  settings_get settings "SPIDER_LOG_PARTITIONS" = PInt n →
  let stored := settings_get (env_settings env) "SCORING_PARTITION_ID" in
  (∃ p, number stored = Some p ∧ 0 ≤ p < n)
  ∧ (∀ q, args_partition_id args = Some q → stored = PInt q)
  ∧ (args_partition_id args = None →
     stored = settings_get settings "SCORING_PARTITION_ID")
  ∧ ∀ key, key ≠ "SCORING_PARTITION_ID" →
      settings_get (env_settings env) key = settings_get settings key.
Proof.
  intros (_ & _ & (too_large & Hge & Hlt) & Hs)%setup_environment_returns Hn.
  rewrite Hs. simpl. rewrite settings_get_set. simpl. split; [|split; [|split]].
  - rewrite Hn in Hge. unfold py_ge, py_lt in *.
    destruct (number (partition_id args settings)) as [p|] eqn:Hp; simpl in *.
    + exists p. split; [done|]. injection Hge as <-.
      destruct (n <=? p) eqn:Hnp; [done|]. injection Hlt as Hlt. lia.
    + by destruct (partition_id args settings).
  - intros q Hq. unfold partition_id. by rewrite Hq.
  - intros Hq. unfold partition_id. by rewrite Hq.
  - intros key Hkey. rewrite settings_get_set. by destruct (decide _).
Qed.


(** X18: the strategy class is located by the [--strategy] option when
    it is given and not empty, else by the [CRAWLING_STRATEGY] setting; when
    neither is there, [setup_environment] raises [ValueError] whatever the
    partition id, and loads nothing. *)
Theorem setup_environment_strategy_class
    (args : Args) (settings : Settings) :
  (∀ env, setup_environment load_object path_exists args settings = Ok env →
     ∃ path, load_object path = Ok (env_strategy_class env)
       ∧ truthy path = true
       ∧ match args_strategy args with
         | Some s => if decide (s = "") then
                       path = settings_get settings "CRAWLING_STRATEGY"
                     else path = PStr s
         | None => path = settings_get settings "CRAWLING_STRATEGY"
         end)
  ∧ ((args_strategy args = None ∨ args_strategy args = Some "") →
     truthy (settings_get settings "CRAWLING_STRATEGY") = false →
     setup_environment load_object path_exists args settings =
       Raise (ValueError ("Couldn't locate strategy class path. Please supply "
                ++ "it either using command line option or settings file."))).
Proof.
  split.
  - intros env (Ht & Hl & _)%setup_environment_returns.
    exists (strategy_classpath args settings). split; [done|]. split; [done|].
    unfold strategy_classpath. destruct (args_strategy args) as [s|]; [|done].
    simpl. destruct (decide (s = "")) as [->|Hs]; [done|].
    destruct (String.eqb_spec s ""); [done|]. done.
  - intros Hargs Hset. unfold setup_environment.
    assert (strategy_classpath args settings =
              settings_get settings "CRAWLING_STRATEGY") as ->.
    { unfold strategy_classpath. by destruct Hargs as [-> | ->]. }
    by rewrite Hset.
Qed.

(** X19: a worker built from what [setup_environment] returns passes the
    guard of its constructor whenever the partition id in force is an
    integer, as the one of the command line always is, and [get_stats_tags]
    reports that partition. *)
Theorem setup_environment_then_init
    (args : Args) (settings : Settings) (env : Environment C) (p : Z) :
  setup_environment load_object path_exists args settings = Ok env →
  partition_id args settings = PInt p →
  main load_object path_exists args settings = Ok (env, p)
  ∧ init_partition_id (env_settings env) = Ok p
  ∧ StrategyWorker.get_stats_tags (env_settings env) =
      [("source", PStr "sw"); ("partition_id", PInt p)].
Proof.
  intros Hrun Hp.
  destruct (setup_environment_returns _ _ _ Hrun) as (_ & _ & _ & Hs).
  assert (Hget : settings_get (env_settings env) "SCORING_PARTITION_ID" =
                   PInt p).
  { rewrite Hs, settings_get_set, Hp. done. }
  unfold main, init_partition_id, StrategyWorker.get_stats_tags.
  rewrite Hrun. simpl. by rewrite Hget.
Qed.

(** X20: [setup_environment] is idempotent: run again on the settings it
    returned, with the same command line, it returns the same again. *)
Theorem setup_environment_idempotent
    (args : Args) (settings : Settings) (env : Environment C) :
  setup_environment load_object path_exists args settings = Ok env →
  setup_environment load_object path_exists args (env_settings env) = Ok env.
Proof.
  intros Hrun.
  destruct (setup_environment_returns _ _ _ Hrun) as (_ & _ & _ & Hs).
  destruct env as [settings' c logging]. simpl in Hs. subst settings'.
  simpl. revert Hrun.
  set (p := partition_id args settings).
  assert (Hsc : strategy_classpath args
                  (settings_set "SCORING_PARTITION_ID" p settings) =
                strategy_classpath args settings).
  { unfold strategy_classpath. by rewrite settings_get_set. }
  assert (Hp : partition_id args
                 (settings_set "SCORING_PARTITION_ID" p settings) = p).
  { unfold partition_id at 1. rewrite settings_get_set. simpl.
    subst p. unfold partition_id. by destruct (args_partition_id args). }
  assert (Hset : settings_set "SCORING_PARTITION_ID" p
                   (settings_set "SCORING_PARTITION_ID" p settings) =
                 settings_set "SCORING_PARTITION_ID" p settings).
  { unfold settings_set. by rewrite insert_insert_eq. }
  unfold setup_environment. rewrite Hsc, Hp, Hset.
  fold p. by rewrite (settings_get_set _ "SPIDER_LOG_PARTITIONS").
Qed.
End StartupProperties.

(** ** The properties at concrete inputs *)

Section QuietWorker.
Import BaseStrategyWorker Examples.
#[local] Existing Instances quiet sample_decoder sample_encoder.

(** Seed intake: both seeds are stamped with job 0, loaded, handed to the
    strategy once and written back; the counters move by one. *)
Example seed_intake :
  let run := work ["seeds"] "now" (fresh tt) in
  let stamped := [set_jid 0 seed_a; set_jid 0 seed_b] in
  run.1 = Ok tt
  ∧ calls run.2 =
      [ConsumerGetMessages 10; StatesFetch {[MBytes "aa"; MBytes "bb"]};
       StatesSetStates (Many stamped); StrategyEnter (HAddSeeds stamped);
       StrategyExit (HAddSeeds stamped) None;
       StatesUpdateCache (Many stamped); StatesUpdateCache (Many []);
       StrategyFinished false]
  ∧ stats run.2 = mkStats 1 1 0 0 0 (Some 1) (Some "now").
Proof. by vm_compute. Qed.

(** A stale page: its fingerprint is fetched, the strategy is not called,
    only [consumed_since_start] moves. *)
Example stale_event_dropped :
  let run := work ["stale-page"] "now" (fresh tt) in
  calls run.2 =
    [ConsumerGetMessages 10; StatesFetch {[MBytes "aa"]};
     StatesUpdateCache (Many []); StrategyFinished false]
  ∧ stats run.2 = mkStats 1 0 0 0 0 (Some 1) (Some "now").
Proof. by vm_compute. Qed.

(** A message without a type, then a [links_extracted]: the first is
    logged with its hex dump, the second is processed. *)
Example mixed_batch_one_malformed :
  let run := work ["no-type"; "links"] "now" (fresh tt) in
  let h := HLinksExtracted page_a [link_c] in
  calls run.2 =
    [ConsumerGetMessages 10; StatesFetch {[MBytes "aa"; MBytes "cc"]};
     StatesSetStates (Many [link_c]); StrategyEnter h; StrategyExit h None;
     StatesUpdateCache (Many [link_c]); StatesUpdateCache (Many []);
     StrategyFinished false]
  ∧ take 3 (logs run.2) =
      [LogError "Decoding error:" []; LogException (KeyError "type");
       LogDebug "Message %s" [AStr "6e6f2d74797065"]]
  ∧ stats run.2 = mkStats 2 0 0 1 0 (Some 2) (Some "now").
Proof. by vm_compute. Qed.

(** C3 at a batch of seeds, a page of job 6 and a page of job 0, the
    worker being on job 0. *)
Lemma C3_witness :
  process_batch ([AddSeeds [seed_a]] ++ PageCrawled stale_a
                   :: [PageCrawled page_a]) (fresh tt) =
    process_batch ([AddSeeds [seed_a]] ++ [PageCrawled page_a]) (fresh tt)
  ∧ ∃ d1 d2,
      calls (process_batch ([PageCrawled page_a]
                              ++ AddSeeds [seed_a; seed_b] :: [])
               (fresh tt)).2 =
        calls (fresh tt) ++ d1 ++
          [StatesSetStates (Many (set_jid 0 <$> [seed_a; seed_b]));
           StrategyEnter (HAddSeeds (set_jid 0 <$> [seed_a; seed_b]))] ++ d2.
Proof.
  split.
  - apply (proj1 (C3_stale_jid_dropped_seeds_stamped
                    [AddSeeds [seed_a]] [PageCrawled page_a]
                    (PageCrawled stale_a) (fresh tt)) stale_a (MInt 6)).
    + reflexivity.
    + vm_compute. reflexivity.
    + discriminate.
  - apply (proj2 (C3_stale_jid_dropped_seeds_stamped
                    [PageCrawled page_a] [] (AddSeeds [seed_a; seed_b])
                    (fresh tt)) [seed_a; seed_b] eq_refl).
Defined.

(** C10 at a page whose [meta] has a fingerprint and no [jid]. *)
Lemma C10_witness :
  process_batch ([] ++ PageCrawled nojid_a :: [PageCrawled page_a]) (fresh tt)
    = process_batch ([] ++ [PageCrawled page_a]) (fresh tt)
  ∧ (collect_batch ["page-no-jid"] (fresh tt)).1 =
      Ok ([PageCrawled nojid_a], 1)
  ∧ MBytes "aa" ∈ _fingerprints
      (states_context (collect_batch ["page-no-jid"] (fresh tt)).2).
Proof.
  destruct (C10_missing_jid_dropped [] [PageCrawled page_a]
              (PageCrawled nojid_a) nojid_a (fresh tt)) as [Hdrop Henrol].
  - reflexivity.
  - vm_compute. reflexivity.
  - split; [exact Hdrop|].
    apply (Henrol "page-no-jid" (MBytes "aa")); vm_compute; reflexivity.
Defined.

(** C4 at a message without a type followed by a [links_extracted]. *)
Lemma C4_witness :
  ∃ w1,
    collect_batch ["no-type"; "links"] (fresh tt) =
      (Ok ([LinksExtracted page_a [link_c]], 2), w1)
    ∧ (∃ l1 l2, logs w1 =
         logs (fresh tt) ++ l1 ++
           [LogError "Decoding error:" []; LogException (KeyError "type");
            LogDebug "Message %s" [AStr "6e6f2d74797065"]] ++ l2)
    ∧ work ["no-type"; "links"] "now" (fresh tt) =
        (Ok tt, set_stats (set_consumed 2 "now")
                  (tick_body [LinksExtracted page_a [link_c]] w1).2)
    ∧ consumed_since_start
        (stats (work ["no-type"; "links"] "now" (fresh tt)).2) = 2.
Proof.
  destruct (C4_caught_decode_errors_isolated ["no-type"; "links"] "now"
              (fresh tt)) as (w1 & Hc & Hl & Hw & Hn).
  - repeat constructor.
  - exists w1. split; [exact Hc|]. split; [|split; [exact Hw | exact Hn]].
    apply (Hl "no-type" (KeyError "type")); [by left | reflexivity].
Defined.

(** C4 as stated fails when [decode] raises another exception, here the
    [ValueError] of bytes that are no message: the exception leaves [work],
    the seeds after it are never processed, nothing is logged by
    [collect_batch] and [consumed_since_start] does not move. *)
Lemma C4_counterexample :
  let run := work ["garbage"; "seeds"] "now" (fresh tt) in
  run.1 = Raise (ValueError "No JSON object could be decoded")
  ∧ calls run.2 = [ConsumerGetMessages 10]
  ∧ logs run.2 = []
  ∧ consumed_since_start (stats run.2) = 0.
Proof. vm_compute. done. Qed.


(** C2 at a [links_extracted] whose requests all have a fingerprint. *)
Lemma C2_witness :
  let d := calls (work ["links"] "now" (fresh tt)).2 in
  let h := HLinksExtracted page_a [link_c] in
  ∃ F d', d = [ConsumerGetMessages 10; StatesFetch F] ++ d'
    ∧ StrategyEnter h ∈ d'
    ∧ loaded F [page_a; link_c].
Proof.
  destruct (C2_state_loaded_before_dispatch ["links"] "now" (fresh tt)
              (calls (work ["links"] "now" (fresh tt)).2) eq_refl
              (HLinksExtracted page_a [link_c]))
    as (F & d' & Hd & _ & Hin & Hl).
  - apply (bool_decide_unpack _). by vm_compute.
  - exists F, d'. split; [exact Hd|]. split; [exact Hin|]. apply Hl.
    intros r Hr. apply (bool_decide_unpack _).
    apply elem_of_cons in Hr as [->|Hr]; [by vm_compute|].
    apply list_elem_of_singleton in Hr as ->. by vm_compute.
Defined.

(** C2 as stated fails when classification raises: the request of this
    [links_extracted] has no fingerprint, [to_fetch] raises [KeyError] before
    the links are enrolled, the fetch gets the empty set, and the message is
    dispatched all the same, with a link whose fingerprint was not fetched. *)
Lemma C2_counterexample :
  let run := work ["links-no-fp"] "now" (fresh tt) in
  let h := HLinksExtracted nofp_a [link_c] in
  take 2 (calls run.2) = [ConsumerGetMessages 10; StatesFetch ∅]
  ∧ StrategyEnter h ∈ drop 2 (calls run.2)
  ∧ LogException (KeyError "fingerprint") ∈ logs run.2
  ∧ link_c ∈ requests_of h
  ∧ fingerprint link_c = Some (MBytes "cc")
  ∧ ¬ loaded ∅ (requests_of h).
Proof.
  simpl. split; [|split; [|split; [|split; [|split]]]].
  - vm_compute. reflexivity.
  - apply (bool_decide_unpack _). by vm_compute.
  - vm_compute. by left.
  - right. by left.
  - by vm_compute.
  - intros Hl. destruct (Hl link_c) as (fp & _ & Hin); [right; by left|].
    by apply not_elem_of_empty in Hin.
Qed.

End QuietWorker.

Section FailingWorker.
Import BaseStrategyWorker Examples.
#[local] Existing Instances failing sample_decoder sample_encoder.

(** C5 at a batch whose first page makes the strategy raise. *)
Lemma C5_witness :
  let w1 := (process_batch [] (fresh tt)).2 in
  (process_batch ([] ++ PageCrawled page_a :: [AddSeeds [seed_a]])
     (fresh tt)).1 = Ok tt
  ∧ process_batch ([] ++ PageCrawled page_a :: [AddSeeds [seed_a]]) (fresh tt)
      = process_batch [AddSeeds [seed_a]] (process_msg (PageCrawled page_a) w1).2
  ∧ (dispatch (PageCrawled page_a) w1).1 =
      Raise (OtherError "ValueError" "boom")
  ∧ process_msg (PageCrawled page_a) w1 =
      (Ok tt, add_log (LogException (OtherError "ValueError" "boom"))
                (dispatch (PageCrawled page_a) w1).2).
Proof.
  destruct (C5_handler_exception_contained [] [AddSeeds [seed_a]]
              (PageCrawled page_a) (fresh tt)) as (H1 & H2 & H3).
  split; [exact H1|]. split; [exact H2|].
  apply (H3 (HPageCrawled page_a) (OtherError "ValueError" "boom")
           (calls (dispatch (PageCrawled page_a)
                     (process_batch [] (fresh tt)).2).2)).
  - reflexivity.
  - apply (bool_decide_unpack _). by vm_compute.
Defined.
End FailingWorker.

Section EnrollingWorker.
Import BaseStrategyWorker Examples.
#[local] Existing Instances enrolling sample_decoder sample_encoder.

End EnrollingWorker.

Section OnePageWorker.
Import BaseStrategyWorker Examples.
#[local] Existing Instances one_page sample_decoder sample_encoder.

(** Score emission from inside [page_crawled], then the finish: the
    encoder gets [(request, 0.5, False)], the producer one record with key
    [None]; the strategy is finished, the running tasks are stopped and the
    drain is scheduled behind the start of the flush-states task. *)
Example score_emission_and_finish :
  let run := work ["page"] "now" (started 0%nat) in
  calls run.2 =
    [ConsumerGetMessages 10; StatesFetch {[MBytes "aa"]};
     StatesSetStates (Many [page_a]); StrategyEnter (HPageCrawled page_a);
     EncodeUpdateScore page_a (1 # 2)%Q false; ProducerSend None "/a";
     StrategyExit (HPageCrawled page_a) None; StatesUpdateCache (One page_a);
     StatesUpdateCache (Many []); StrategyFinished true;
     LoopingCallStop WorkTask; LoopingCallStop LoggingTask]
  ∧ delayed (reactor run.2) =
      [RunFlushStatesTask; DeferredCallback [PerformShutdown; StopReactor]]
  ∧ calls (run_last run.2) = calls run.2 ++ drain_calls.
Proof. by vm_compute. Qed.


(** C9 at a running worker that receives the signal twice. *)
Lemma C9_example :
  let w1 := shutdown_signal 15 (started 0%nat) in
  let w2 := shutdown_signal 2 w1 in
  running_tasks (started 0%nat) = [WorkTask; LoggingTask]
  ∧ own_state w2 = own_state w1
  ∧ calls w1 = [LoopingCallStop WorkTask; LoopingCallStop LoggingTask]
               ++ drain_calls
  ∧ calls w2 = calls w1 ++ drain_calls.
Proof. by vm_compute. Qed.
End OnePageWorker.

(** ** The further properties at sample inputs *)

Section QuietWorkerMore.
Import BaseStrategyWorker Examples.
#[local] Existing Instances quiet sample_decoder sample_encoder.

(** X1 at a sequence whose second request has no fingerprint. *)
Lemma to_fetch_missing_fingerprint_witness :
  StatesContext.to_fetch (Many [page_a; nofp_a]) (fresh tt) =
    (Raise (KeyError "fingerprint"), fresh tt)
  ∧ StatesContext.refresh_and_keep (Many [page_a; nofp_a]) (fresh tt) =
      (Raise (KeyError "fingerprint"), fresh tt).
Proof.
  apply (to_fetch_missing_fingerprint (Many [page_a; nofp_a]) nofp_a).
  - apply (bool_decide_unpack _). by vm_compute.
  - reflexivity.
Defined.

(** X2 at two seeds. *)
Lemma to_fetch_enrols_exactly_witness :
  let run := StatesContext.to_fetch (Many [seed_a; seed_b]) (fresh tt) in
  run.1 = Ok tt
  ∧ calls run.2 = [] ∧ logs run.2 = [] ∧ touched run.2 = []
  ∧ ∀ fp, fp ∈ pending run.2 ↔
          fp ∈ pending (fresh tt)
          ∨ ∃ r, covers (Many [seed_a; seed_b]) r ∧ fingerprint r = Some fp.
Proof.
  apply (to_fetch_enrols_exactly (Many [seed_a; seed_b]) (fresh tt)).
  intros r Hr. simpl in Hr.
  apply elem_of_cons in Hr as [->|Hr]; [by eexists|].
  apply list_elem_of_singleton in Hr as ->. by eexists.
Defined.

(** X3 at a seed and a link. *)
Lemma to_fetch_split_and_repeat_witness :
  (StatesContext.to_fetch (Many [seed_a]);;
   StatesContext.to_fetch (Many [link_c])) (fresh tt) =
    StatesContext.to_fetch (Many ([seed_a] ++ [link_c])) (fresh tt)
  ∧ (StatesContext.to_fetch (Many [seed_a]);;
     StatesContext.to_fetch (Many [seed_a])) (fresh tt) =
      StatesContext.to_fetch (Many [seed_a]) (fresh tt).
Proof.
  apply (to_fetch_split_and_repeat [seed_a] [link_c] (fresh tt)).
  intros r Hr. simpl in Hr.
  apply elem_of_cons in Hr as [->|Hr]; [by eexists|].
  apply list_elem_of_singleton in Hr as ->. by eexists.
Defined.

(** X4 at a link kept in a new worker. *)
Lemma refresh_and_keep_then_release_witness :
  ∃ fps, mapM fingerprint [link_c] = Some fps
  ∧ (let kept := StatesContext.refresh_and_keep (Many [link_c]) (fresh tt) in
     kept.1 = Ok tt
     ∧ calls kept.2 = calls (fresh tt) ++
         [StatesFetch (pending (fresh tt) ∪ list_to_set fps);
          StatesSetStates (Many [link_c])]
     ∧ pending kept.2 = ∅
     ∧ touched kept.2 = touched (fresh tt) ++ [link_c])
  ∧ (let run := (StatesContext.refresh_and_keep (Many [link_c]);;
                 StatesContext.release) (fresh tt) in
     run.1 = Ok tt
     ∧ calls run.2 = calls (fresh tt) ++
         [StatesFetch (pending (fresh tt) ∪ list_to_set fps);
          StatesSetStates (Many [link_c]);
          StatesUpdateCache (Many (touched (fresh tt) ++ [link_c]))]
     ∧ pending run.2 = ∅
     ∧ touched run.2 = []).
Proof.
  apply (refresh_and_keep_then_release [link_c] (fresh tt)).
  intros r Hr. apply list_elem_of_singleton in Hr as ->. by eexists.
Defined.

(** X7 at a batch of seeds, a page of an older job, a message without a
    type and a page: two handlers are entered, in that order. *)
Lemma work_dispatch_order_witness :
  let msgs := ["seeds"; "stale-page"; "no-type"; "page"] in
  let d := calls (work msgs "now" (fresh tt)).2 in
  entered d = [HAddSeeds (set_jid 0 <$> [seed_a; seed_b]); HPageCrawled page_a]
  ∧ entered d = dispatched 0 (decoded msgs)
  ∧ returned d `sublist_of` entered d.
Proof.
  split; [by vm_compute|].
  apply (work_dispatch_order ["seeds"; "stale-page"; "no-type"; "page"] "now"
           (fresh tt)).
  - repeat constructor.
  - reflexivity.
Defined.

(** X8 at the same batch: one [page_crawled] handler returned. *)
Lemma work_counts_returned_handlers_witness :
  let msgs := ["seeds"; "stale-page"; "no-type"; "page"] in
  let run := work msgs "now" (fresh tt) in
  consumed_page_crawled (stats run.2) = 1
  ∧ counter_of (HPageCrawled page_a) (stats run.2) =
      counter_of (HPageCrawled page_a) (stats (fresh tt))
      + Z.of_nat (length (filter (λ h', same_kind (HPageCrawled page_a) h')
                            (returned (calls run.2)))).
Proof.
  split; [by vm_compute|].
  apply (work_counts_returned_handlers
           ["seeds"; "stale-page"; "no-type"; "page"] "now" (fresh tt)).
  reflexivity.
Defined.

(** X10 at a page followed by bytes that are no message. *)
Lemma work_uncaught_decode_error_witness :
  let w := fresh tt in
  let w1 := (collect_batch ["page"] w).2 in
  work (["page"] ++ "garbage" :: ["seeds"]) "now" w =
    (Raise (ValueError "No JSON object could be decoded"), w1)
  ∧ calls w1 = calls w ++ [ConsumerGetMessages (consumer_batch_size w)]
  ∧ stats w1 = stats w ∧ strategy w1 = strategy w
  ∧ touched w1 = touched w
  ∧ pending w ⊆ pending w1
  ∧ ∀ msg, msg ∈ decoded ["page"] → enrolled (pending w1) msg.
Proof.
  apply (work_uncaught_decode_error ["page"] ["seeds"] "garbage"
           (ValueError "No JSON object could be decoded") "now" (fresh tt)).
  - repeat constructor.
  - reflexivity.
  - reflexivity.
Defined.

(** X13 at a running worker that receives a signal. *)
Lemma steps_keep_job_id_witness :
  let w := started tt in
  let w' := (_handle_shutdown 15 w).2 in
  job_id w' = job_id w ∧ consumer_batch_size w' = consumer_batch_size w.
Proof.
  apply (steps_keep_job_id (started tt) (_handle_shutdown 15 (started tt)).2).
  apply rtc_once, step_signal.
Defined.

(** X14 at a running worker whose work task fires on a page. *)
Lemma steps_counters_grow_witness :
  let w := started tt in
  let w' := (fire WorkTask (work ["page"] "now") w).2 in
  stats_le (stats w) (stats w').
Proof.
  apply (steps_counters_grow (started tt)
           (fire WorkTask (work ["page"] "now") (started tt)).2).
  apply rtc_once, step_work. reflexivity.
Defined.

(** X15 at the same turn of the reactor. *)
Lemma steps_keep_nothing_witness :
  let w := started tt in
  let w' := (fire WorkTask (work ["page"] "now") w).2 in
  touched w' = [].
Proof.
  apply (steps_keep_nothing (started tt)
           (fire WorkTask (work ["page"] "now") (started tt)).2).
  - apply rtc_once, step_work. reflexivity.
  - reflexivity.
Defined.
End QuietWorkerMore.

Section KeepingWorker.
Import BaseStrategyWorker Examples.
#[local] Existing Instances keeping sample_decoder sample_encoder.

(** X9 at a page whose handler keeps a link: the link is written back by
    [release], although the worker itself writes back the page only. *)
Lemma kept_requests_written_back_witness :
  ∃ d1 d2 kept,
    calls (tick_body ([] ++ PageCrawled page_a :: []) (fresh tt)).2 =
      calls (fresh tt) ++ d1 ++ StatesUpdateCache (Many kept) :: d2
    ∧ link_c ∈ kept
    ∧ Forall outside_handler d2.
Proof.
  apply (kept_requests_written_back [] [] (PageCrawled page_a) (fresh tt)
           (Many [page_a]) (One page_a) (HPageCrawled page_a) [link_c] link_c).
  - reflexivity.
  - reflexivity.
  - simpl. apply list_elem_of_singleton. reflexivity.
  - apply list_elem_of_singleton. reflexivity.
Defined.
End KeepingWorker.

Section StartupExamples.
Import Examples.

(** X16 at a command line that asks for partition 3 of 4. *)
Lemma setup_environment_partition_in_range_witness :
  let env := mkEnvironment
               (settings_set "SCORING_PARTITION_ID" (PInt 3) sample_settings)
               "frontera.strategy.basic.BasicCrawlingStrategy"
               (BasicConfig "INFO") in
  let stored := settings_get (env_settings env) "SCORING_PARTITION_ID" in
  (∃ p, number stored = Some p ∧ 0 ≤ p < 4)
  ∧ (∀ q, args_partition_id sample_args = Some q → stored = PInt q)
  ∧ (args_partition_id sample_args = None →
     stored = settings_get sample_settings "SCORING_PARTITION_ID")
  ∧ ∀ key, key ≠ "SCORING_PARTITION_ID" →
      settings_get (env_settings env) key = settings_get sample_settings key.
Proof.
  apply (setup_environment_partition_in_range sample_load_object (λ _, false)
           sample_args sample_settings).
  - by vm_compute.
  - reflexivity.
Defined.


(** X19 at the command line of X16. *)
Lemma setup_environment_then_init_witness :
  let env := mkEnvironment
               (settings_set "SCORING_PARTITION_ID" (PInt 3) sample_settings)
               "frontera.strategy.basic.BasicCrawlingStrategy"
               (BasicConfig "INFO") in
  main sample_load_object (λ _, false) sample_args sample_settings =
    Ok (env, 3)
  ∧ init_partition_id (env_settings env) = Ok 3
  ∧ StrategyWorker.get_stats_tags (env_settings env) =
      [("source", PStr "sw"); ("partition_id", PInt 3)].
Proof.
  apply (setup_environment_then_init sample_load_object (λ _, false)
           sample_args sample_settings).
  - by vm_compute.
  - reflexivity.
Defined.

(** X20 at the same command line. *)
Lemma setup_environment_idempotent_witness :
  let env := mkEnvironment
               (settings_set "SCORING_PARTITION_ID" (PInt 3) sample_settings)
               "frontera.strategy.basic.BasicCrawlingStrategy"
               (BasicConfig "INFO") in
  setup_environment sample_load_object (λ _, false) sample_args
    (env_settings env) = Ok env.
Proof.
  apply (setup_environment_idempotent sample_load_object (λ _, false)
           sample_args sample_settings).
  by vm_compute.
Defined.
End StartupExamples.
